(** * scanLogs.py: the MongoDB COLLSCAN log scanner

    A shallow embedding of [src/scanLogs.py] and the properties of its
    line scanner, field extractor, summary and export.

    Modelling conventions.
    - A Python [str] is a [string]; one [ascii] stands for the code point of
      the same number, so the texts covered are those of the Latin-1 range.
      The two signs of the messages that lie outside it are written as
      their UTF-8 bytes.
    - A Python [int] is a [Z]; [int(...)] and the decimal rendering of an
      [int] are the unbounded conversions.
    - The dict built by [parse_collscan_line] always has the same nine keys
      and is a record with one field per key.
    - [print], [open], the iteration over a file and [write] act on an
      explicit [world]; exceptions are values of [exn] threaded by the
      monad [M]. *)

From Stdlib Require Import ZArith List String Ascii Bool Lia.
From Stdlib Require Import DecimalString Sorted Permutation.
Import ListNotations.

Local Open Scope string_scope.
Local Open Scope Z_scope.

(** ** Text helpers *)

Module Text.

(** [sub in s] of Python *)
Fixpoint str_in (sub s : string) : bool :=
  if String.prefix sub s then true
  else match s with
       | EmptyString => false
       | String _ s' => str_in sub s'
       end.

(** Code points below 256 for which [str.isspace] holds; [\s] of [re]
    matches the same ones. *)
Definition isspace (c : ascii) : bool :=
  let n := nat_of_ascii c in
  ((9 <=? n) && (n <=? 13) || (28 <=? n) && (n <=? 32)
   || (n =? 133) || (n =? 160))%nat.

(** Code points below 256 matched by [\d]. *)
Definition isdigit (c : ascii) : bool :=
  let n := nat_of_ascii c in ((48 <=? n) && (n <=? 57))%nat.

Fixpoint lstrip (s : string) : string :=
  match s with
  | String c s' => if isspace c then lstrip s' else s
  | EmptyString => EmptyString
  end.

Fixpoint rstrip (s : string) : string :=
  match s with
  | String c s' =>
      match rstrip s' with
      | EmptyString => if isspace c then EmptyString else String c EmptyString
      | r => String c r
      end
  | EmptyString => EmptyString
  end.

(** [s.strip()] *)
Definition strip (s : string) : string := rstrip (lstrip s).

(** [int(s)] on a string of decimal digits *)
Definition int_of_digits (s : string) : Z :=
  fold_left (fun acc c => 10 * acc + (Z.of_nat (nat_of_ascii c) - 48))
            (list_ascii_of_string s) 0.

(** [str(n)] on an [int] *)
Definition str_of_int (n : Z) : string := NilZero.string_of_int (Z.to_int n).

(** [c * n] for a one-character string [c] *)
Fixpoint repeat_char (c : ascii) (n : nat) : string :=
  match n with
  | O => EmptyString
  | S n' => String c (repeat_char c n')
  end.

(** [s[:n]] *)
Fixpoint take (n : nat) (s : string) : string :=
  match n, s with
  | S n', String c s' => String c (take n' s')
  | _, _ => EmptyString
  end.

(** The double quote, which a string literal here cannot hold. *)
Definition dquote : ascii := "034"%char.

End Text.

(** ** The fragment of [re] the script uses

    Every quantifier of the eight patterns applies to one character or one
    character class, and every pattern has exactly one capturing group, on
    its main path.  A pattern is therefore three quantifier sequences: what
    comes before the group, the group, and what comes after it.  Matching is
    the backtracking, greedy, leftmost search of [re.search]. *)

Module Re.

Inductive citem :=
| IChar (c : ascii)     (* a literal character *)
| IDigit                (* \d *)
| ISpace.               (* \s *)

Inductive cclass :=
| One (i : citem)             (* a character or an escape *)
| AnyOf (l : list citem)      (* [...]  *)
| NoneOf (l : list citem).    (* [^...] *)

Definition item_matches (i : citem) (c : ascii) : bool :=
  match i with
  | IChar d => Ascii.eqb d c
  | IDigit => Text.isdigit c
  | ISpace => Text.isspace c
  end.

Definition class_matches (k : cclass) (c : ascii) : bool :=
  match k with
  | One i => item_matches i c
  | AnyOf l => existsb (fun i => item_matches i c) l
  | NoneOf l => negb (existsb (fun i => item_matches i c) l)
  end.

(** One quantified class: [k{lo,hi}], greedy; [hi = None] is no bound. *)
Record piece := Piece { p_class : cclass; p_min : nat; p_max : option nat }.

Definition regex := list piece.

Definition once (k : cclass) : piece := Piece k 1 (Some 1%nat).   (* k   *)
Definition star (k : cclass) : piece := Piece k 0 None.           (* k*  *)
Definition plus (k : cclass) : piece := Piece k 1 None.           (* k+  *)
Definition opt (k : cclass) : piece := Piece k 0 (Some 1%nat).    (* k?  *)
Definition times (n : nat) (k : cclass) : piece := Piece k n (Some n). (* k{n} *)

Definition chr (c : ascii) : piece := once (One (IChar c)).
Definition lit (s : string) : regex := map chr (list_ascii_of_string s).
Definition digit : cclass := One IDigit.
Definition space : cclass := One ISpace.

Section Matcher.
Context {R : Type}.

(** Greedy repetition of class [k] between [lo] and [hi] times at the
    head of [s]; each length is tried from the longest down, and the
    first one the continuation accepts wins. *)
Fixpoint many (k : cclass) (lo : nat) (hi : option nat) (s : string)
         (cont : string -> option R) {struct s} : option R :=
  match lo with
  | S lo' =>
      match s with
      | String c s' =>
          if class_matches k c
          then many k lo' (option_map Nat.pred hi) s' cont
          else None
      | EmptyString => None
      end
  | O =>
      match hi with
      | Some O => cont s
      | _ =>
          match s with
          | String c s' =>
              if class_matches k c
              then match many k O (option_map Nat.pred hi) s' cont with
                   | Some r => Some r
                   | None => cont s
                   end
              else cont s
          | EmptyString => cont s
          end
      end
  end.

Fixpoint seq (r : regex) (s : string) (cont : string -> option R)
  : option R :=
  match r with
  | [] => cont s
  | p :: r' => many (p_class p) (p_min p) (p_max p) s
                    (fun s1 => seq r' s1 cont)
  end.
End Matcher.

(** [pre(grp)post] *)
Record pattern := Pattern { pre : regex; grp : regex; post : regex }.

(** A match object, as far as the script reads it: [m.group(1)]. *)
Record match_obj := Match { group1 : string }.

(** The text between two suffixes [s1] and [s2] of one string. *)
Definition between (s1 s2 : string) : string :=
  Text.take (String.length s1 - String.length s2)%nat s1.

(** [re.match(p, s)]: a match anchored at the head of [s]. *)
Definition match_here (p : pattern) (s : string) : option match_obj :=
  seq (pre p) s (fun s1 =>
  seq (grp p) s1 (fun s2 =>
  seq (post p) s2 (fun _ => Some (Match (between s1 s2))))).

(** [re.search(p, s)]: the match at the leftmost position that has one. *)
Fixpoint search (p : pattern) (s : string) : option match_obj :=
  match match_here p s with
  | Some m => Some m
  | None => match s with
            | String _ s' => search p s'
            | EmptyString => None
            end
  end.

End Re.

(** ** The eight patterns of [parse_collscan_line] *)

Module Patterns.
Import Re.

(** [(\d{4}-\d{2}-\d{2}T\d{2}:\d{2}:\d{2}\.\d+[+-]\d{4})] *)
Definition timestamp_re : pattern :=
  Pattern []
    ([times 4 digit; chr "-"; times 2 digit; chr "-"; times 2 digit; chr "T";
      times 2 digit; chr ":"; times 2 digit; chr ":"; times 2 digit; chr ".";
      plus digit; once (AnyOf [IChar "+"; IChar "-"]); times 4 digit])
    [].

(** [ns:\s*([^\s]+\.[^\s]+)] *)
Definition ns_re : pattern :=
  Pattern (lit "ns:" ++ [star space])%list
          [plus (NoneOf [ISpace]); chr "."; plus (NoneOf [ISpace])]
          [].

(** [collection:\s*Q?([^Q\s]+)Q?], where Q is the double quote *)
Definition collection_re : pattern :=
  Pattern (lit "collection:" ++ [star space; opt (One (IChar Text.dquote))])%list
          [plus (NoneOf [IChar Text.dquote; ISpace])]
          [opt (One (IChar Text.dquote))].

(** [query:\s*({[^}]+})] *)
Definition query_re : pattern :=
  Pattern (lit "query:" ++ [star space])%list
          [chr "{"; plus (NoneOf [IChar "}"]); chr "}"]
          [].

(** [(\d+)ms] *)
Definition duration_re : pattern :=
  Pattern [] [plus digit] (lit "ms").

(** [docsExamined:\s*(\d+)] *)
Definition docs_re : pattern :=
  Pattern (lit "docsExamined:" ++ [star space])%list [plus digit] [].

(** [keysExamined:\s*(\d+)] *)
Definition keys_re : pattern :=
  Pattern (lit "keysExamined:" ++ [star space])%list [plus digit] [].

(** [planSummary:\s*([^\s]+)] *)
Definition plan_re : pattern :=
  Pattern (lit "planSummary:" ++ [star space])%list [plus (NoneOf [ISpace])] [].

End Patterns.

(** ** The record of one marker line *)

Record query_info := QueryInfo {
  line_number : Z;
  timestamp : option string;
  collection : option string;
  query : option string;
  duration_ms : option Z;
  docs_examined : option Z;
  keys_examined : option Z;
  plan_summary : option string;
  raw_line : string
}.

(** Assignments [query_info[key] = v] *)
Definition set_timestamp (v : option string) (q : query_info) : query_info :=
  QueryInfo (line_number q) v (collection q) (query q) (duration_ms q)
            (docs_examined q) (keys_examined q) (plan_summary q) (raw_line q).
Definition set_collection (v : option string) (q : query_info) : query_info :=
  QueryInfo (line_number q) (timestamp q) v (query q) (duration_ms q)
            (docs_examined q) (keys_examined q) (plan_summary q) (raw_line q).
Definition set_query (v : option string) (q : query_info) : query_info :=
  QueryInfo (line_number q) (timestamp q) (collection q) v (duration_ms q)
            (docs_examined q) (keys_examined q) (plan_summary q) (raw_line q).
Definition set_duration_ms (v : option Z) (q : query_info) : query_info :=
  QueryInfo (line_number q) (timestamp q) (collection q) (query q) v
            (docs_examined q) (keys_examined q) (plan_summary q) (raw_line q).
Definition set_docs_examined (v : option Z) (q : query_info) : query_info :=
  QueryInfo (line_number q) (timestamp q) (collection q) (query q)
            (duration_ms q) v (keys_examined q) (plan_summary q) (raw_line q).
Definition set_keys_examined (v : option Z) (q : query_info) : query_info :=
  QueryInfo (line_number q) (timestamp q) (collection q) (query q)
            (duration_ms q) (docs_examined q) v (plan_summary q) (raw_line q).
Definition set_plan_summary (v : option string) (q : query_info) : query_info :=
  QueryInfo (line_number q) (timestamp q) (collection q) (query q)
            (duration_ms q) (docs_examined q) (keys_examined q) v (raw_line q).

(** Truth value of an optional string: [None] and [''] are false. *)
Definition truthy_str (v : option string) : bool :=
  match v with
  | None | Some EmptyString => false
  | Some _ => true
  end.

(** Truth value of an optional int: [None] and [0] are false. *)
Definition truthy_int (v : option Z) : bool :=
  match v with
  | None => false
  | Some n => negb (n =? 0)
  end.

(** Truth value of the dict: it has nine keys, so it is never empty. *)
Definition truthy_info (q : query_info) : bool := true.

(** ** [parse_collscan_line] *)

Definition parse_collscan_line (line : string) (line_number : Z) : query_info :=
  let query_info :=
    QueryInfo line_number None None None None None None None (Text.strip line) in
  let query_info :=
    match Re.search Patterns.timestamp_re line with
    | Some m => set_timestamp (Some (Re.group1 m)) query_info
    | None => query_info
    end in
  let query_info :=
    match Re.search Patterns.ns_re line with
    | Some m => set_collection (Some (Re.group1 m)) query_info
    | None => query_info
    end in
  let query_info :=
    if negb (truthy_str (collection query_info)) then
      match Re.search Patterns.collection_re line with
      | Some m => set_collection (Some (Re.group1 m)) query_info
      | None => query_info
      end
    else query_info in
  let query_info :=
    match Re.search Patterns.query_re line with
    | Some m => set_query (Some (Re.group1 m)) query_info
    | None => query_info
    end in
  let query_info :=
    match Re.search Patterns.duration_re line with
    | Some m => set_duration_ms (Some (Text.int_of_digits (Re.group1 m))) query_info
    | None => query_info
    end in
  let query_info :=
    match Re.search Patterns.docs_re line with
    | Some m => set_docs_examined (Some (Text.int_of_digits (Re.group1 m))) query_info
    | None => query_info
    end in
  let query_info :=
    match Re.search Patterns.keys_re line with
    | Some m => set_keys_examined (Some (Text.int_of_digits (Re.group1 m))) query_info
    | None => query_info
    end in
  let query_info :=
    match Re.search Patterns.plan_re line with
    | Some m => set_plan_summary (Some (Re.group1 m)) query_info
    | None => query_info
    end in
  query_info.

(** ** The world the script runs in *)

(** The exceptions the script can meet; all are subclasses of
    [Exception].  Each carries [str(e)]. *)
Inductive exn :=
| FileNotFoundError (msg : string)
| OSError (msg : string)              (* any other failure of open, read or write *)
| ZeroDivisionError (msg : string)
| OverflowError (msg : string).

Definition exn_str (e : exn) : string :=
  match e with
  | FileNotFoundError m | OSError m | ZeroDivisionError m | OverflowError m => m
  end.

(** What [open(path, 'r', ...)] gives when it succeeds: the lines the
    iteration yields and, if reading breaks off after them, the error. *)
Record input_file := InputFile {
  file_lines : list string;
  read_error : option exn
}.

Record world := World {
  fs_open_r : string -> exn + input_file;  (* open for reading *)
  fs_open_w : string -> option exn;        (* the error of open for writing *)
  fs_quota : option nat;    (* write calls the device still accepts; None: any *)
  fs_write_error : exn;     (* raised by a write call past the quota *)
  fs_out : list (string * string);         (* files written: path, content *)
  stdout : list string                     (* one entry for each print call *)
}.

Inductive result (A : Type) :=
| Return (a : A)
| Raise (e : exn).
Arguments Return {A} a.
Arguments Raise {A} e.

(** Computations: a world in, a value or an exception and a world out. *)
Definition M (A : Type) : Type := world -> result A * world.

Definition ret {A} (a : A) : M A := fun w => (Return a, w).

Definition raise {A} (e : exn) : M A := fun w => (Raise e, w).

Definition bind {A B} (c : M A) (k : A -> M B) : M B :=
  fun w => match c w with
           | (Return a, w') => k a w'
           | (Raise e, w') => (Raise e, w')
           end.

(** [try: body  except Exception as e: handler(e)]; the handler tells the
    classes apart itself. *)
Definition try_except {A} (body : M A) (handler : exn -> M A) : M A :=
  fun w => match body w with
           | (Return a, w') => (Return a, w')
           | (Raise e, w') => handler e w'
           end.

Declare Scope monad_scope.
Delimit Scope monad_scope with monad.
Notation "x <- c ;; k" := (bind c (fun x => k))
  (at level 61, c at next level, right associativity) : monad_scope.
Notation "c ;; k" := (bind c (fun _ => k))
  (at level 61, right associativity) : monad_scope.
Local Open Scope monad_scope.

Definition set_stdout (l : list string) (w : world) : world :=
  World (fs_open_r w) (fs_open_w w) (fs_quota w) (fs_write_error w) (fs_out w) l.

Definition print (s : string) : M unit :=
  fun w => (Return tt, set_stdout (stdout w ++ [s])%list w).

(** [for x in l: body(x)] *)
Fixpoint for_each {A} (l : list A) (body : A -> M unit) : M unit :=
  match l with
  | [] => ret tt
  | x :: l' => body x ;; for_each l' body
  end.

Definition nl : string := String "010" EmptyString.
Definition banner : string := Text.repeat_char "=" 70.

(** *** Reading *)

Definition open_read (path : string) : M input_file :=
  fun w => match fs_open_r w path with
           | inl e => (Raise e, w)
           | inr f => (Return f, w)
           end.

(** *** Writing *)

Fixpoint put_file (path content : string) (fs : list (string * string))
  : list (string * string) :=
  match fs with
  | [] => [(path, content)]
  | (p, c) :: fs' => if String.eqb p path then (p, content) :: fs'
                     else (p, c) :: put_file path content fs'
  end.

Fixpoint get_file (path : string) (fs : list (string * string)) : option string :=
  match fs with
  | [] => None
  | (p, c) :: fs' => if String.eqb p path then Some c else get_file path fs'
  end.

Definition set_out (q : option nat) (fs : list (string * string)) (w : world)
  : world :=
  World (fs_open_r w) (fs_open_w w) q (fs_write_error w) fs (stdout w).

(** [open(path, 'w')]: the file is created or emptied. *)
Definition open_write (path : string) : M unit :=
  fun w => match fs_open_w w path with
           | Some e => (Raise e, w)
           | None => (Return tt, set_out (fs_quota w) (put_file path "" (fs_out w)) w)
           end.

(** [f.write(s)] on the file opened at [path] *)
Definition write (path s : string) : M unit :=
  fun w =>
    let old := match get_file path (fs_out w) with Some c => c | None => "" end in
    match fs_quota w with
    | Some O => (Raise (fs_write_error w), w)
    | Some (S n) => (Return tt, set_out (Some n) (put_file path (old ++ s) (fs_out w)) w)
    | None => (Return tt, set_out None (put_file path (old ++ s) (fs_out w)) w)
    end.

(** ** [parse_mongo_log] *)

Definition marker : string := "COLLSCAN".

(** The body of the loop over the lines, on the two variables it updates. *)
Definition scan_line (st : list query_info * Z) (line : string)
  : list query_info * Z :=
  let '(collscan_queries, line_number) := st in
  let line_number := line_number + 1 in
  if Text.str_in marker line then
    let query_info := parse_collscan_line line line_number in
    if truthy_info query_info
    then ((collscan_queries ++ [query_info])%list, line_number)
    else (collscan_queries, line_number)
  else (collscan_queries, line_number).

Definition scan_lines (lines : list string) : list query_info :=
  fst (fold_left scan_line lines ([], 0)).

Definition parse_mongo_log (log_file_path : string) : M (list query_info) :=
  print banner ;;
  print ("Analyzing MongoDB Log: " ++ log_file_path) ;;
  print banner ;;
  try_except
    (f <- open_read log_file_path ;;
     let collscan_queries := scan_lines (file_lines f) in
     match read_error f with
     | Some e => raise e
     | None => ret collscan_queries
     end)
    (fun e =>
       match e with
       | FileNotFoundError _ =>
           print ("✗ Error: File not found - " ++ log_file_path) ;;
           ret []
       | _ =>
           print ("✗ Error reading file: " ++ exn_str e) ;;
           ret []
       end).

(** ** Floats, as far as the summary needs them

    [a / b] on two [int]s is the binary64 number nearest to the exact
    quotient, ties to even; [OverflowError] when that is out of range.
    A finite float is [(-1)^neg * mant * 2^exp]. *)

Module Float.

Record float := Float { f_neg : bool; f_mant : Z; f_exp : Z }.

(** Nearest integer to [n / d], ties to even ([0 <= n], [0 < d]). *)
Definition round_half_even (n d : Z) : Z :=
  let q := n / d in
  let r := n mod d in
  if (d <? 2 * r) || ((2 * r =? d) && Z.odd q) then q + 1 else q.

(** Numerator and denominator of [n / (d * 2^e)]. *)
Definition scaled (n d e : Z) : Z * Z :=
  (n * 2 ^ Z.max 0 (- e), d * 2 ^ Z.max 0 e).

(** [floor (log2 (n / d))] for positive [n] and [d]. *)
Definition floor_log2_quot (n d : Z) : Z :=
  let g := Z.log2 n - Z.log2 d in
  let '(n', d') := scaled n d g in
  if d' <=? n' then g else g - 1.

(** [a / b] *)
Definition true_div (a b : Z) : result float :=
  if b =? 0 then Raise (ZeroDivisionError "division by zero")
  else
    let neg := xorb (a <? 0) (b <? 0) in
    let n := Z.abs a in
    let d := Z.abs b in
    if n =? 0 then Return (Float neg 0 0)
    else
      let e := Z.max (floor_log2_quot n d - 52) (-1074) in
      let '(n', d') := scaled n d e in
      let m := round_half_even n' d' in
      if 2 ^ (1024 - e) <=? m
      then Raise (OverflowError "integer division result too large for a float")
      else Return (Float neg m e).

(** The two digits of a number below 100. *)
Definition two_digits (n : Z) : string :=
  Text.str_of_int (n / 10) ++ Text.str_of_int (n mod 10).

(** [f"{x:.2f}"]: the exact value of [x] rounded to hundredths, ties to
    even. *)
Definition format_2f (x : float) : string :=
  let '(n, d) := scaled (100 * f_mant x) 1 (- f_exp x) in
  let h := round_half_even n d in
  (if f_neg x then "-" else "")
  ++ Text.str_of_int (h / 100) ++ "." ++ two_digits (h mod 100).

End Float.

(** ** [print_summary] *)

(** [by_collection[k] += 1] on a [defaultdict(int)]; the dict keeps its keys
    in the order of their first insertion. *)
Fixpoint bump (k : string) (d : list (string * Z)) : list (string * Z) :=
  match d with
  | [] => [(k, 0 + 1)]
  | (k', n) :: d' => if String.eqb k' k then (k', n + 1) :: d'
                     else (k', n) :: bump k d'
  end.

(** [sorted(items, key=lambda x: x[1], reverse=True)]: descending by count;
    the sort is stable, so equal counts keep the order of [items]. *)
Fixpoint insert_desc (x : string * Z) (l : list (string * Z))
  : list (string * Z) :=
  match l with
  | [] => [x]
  | y :: l' => if snd x <? snd y then y :: insert_desc x l' else x :: y :: l'
  end.

Fixpoint sorted_desc (l : list (string * Z)) : list (string * Z) :=
  match l with
  | [] => []
  | x :: l' => insert_desc x (sorted_desc l')
  end.

(** The three variables of the loop over the records. *)
Record tally := Tally {
  by_collection : list (string * Z);
  total_duration : Z;
  slow_queries : list query_info
}.

Definition tally_step (t : tally) (query : query_info) : tally :=
  let by_collection :=
    match collection query with
    | Some c => if truthy_str (Some c) then bump c (by_collection t)
                else by_collection t
    | None => by_collection t
    end in
  match duration_ms query with
  | Some d =>
      if truthy_int (Some d) then
        Tally by_collection (total_duration t + d)
              (if 100 <? d then (slow_queries t ++ [query])%list
               else slow_queries t)
      else Tally by_collection (total_duration t) (slow_queries t)
  | None => Tally by_collection (total_duration t) (slow_queries t)
  end.

Definition tally_of (collscan_queries : list query_info) : tally :=
  fold_left tally_step collscan_queries (Tally [] 0 []).

Definition len {A} (l : list A) : Z := Z.of_nat (List.length l).

Definition print_summary (collscan_queries : list query_info) : M unit :=
  match collscan_queries with
  | [] => print (nl ++ "✓ No COLLSCAN queries found!")
  | _ =>
      print (nl ++ banner) ;;
      print "SUMMARY" ;;
      print banner ;;
      print (nl ++ "Total COLLSCAN queries found: "
                ++ Text.str_of_int (len collscan_queries)) ;;
      let t := tally_of collscan_queries in
      match by_collection t with
      | [] => ret tt
      | _ =>
          print (nl ++ "COLLSCAN queries by collection:") ;;
          for_each (sorted_desc (by_collection t))
            (fun '(collection, count) =>
               print ("  " ++ collection ++ ": " ++ Text.str_of_int count))
      end ;;
      match slow_queries t with
      | [] => ret tt
      | _ =>
          print (nl ++ "Slow COLLSCAN queries (>100ms): "
                    ++ Text.str_of_int (len (slow_queries t))) ;;
          match Float.true_div (total_duration t) (len collscan_queries) with
          | Raise e => raise e
          | Return avg =>
              print ("Average duration: " ++ Float.format_2f avg ++ "ms")
          end
      end
  end.

(** ** [print_detailed_results] *)

(** [l[:limit]] *)
Definition slice_to {A} (limit : Z) (l : list A) : list A :=
  firstn (Z.to_nat (if limit <? 0 then len l + limit else limit)) l.

(** [enumerate(l, start)] *)
Fixpoint enumerate {A} (l : list A) (start : Z) : list (Z * A) :=
  match l with
  | [] => []
  | x :: l' => (start, x) :: enumerate l' (start + 1)
  end.

Definition when (b : bool) (c : M unit) : M unit := if b then c else ret tt.

Definition is_some {A} (v : option A) : bool :=
  match v with Some _ => true | None => false end.

(** [str(v)] inside an f-string, for an optional text and an optional int *)
Definition str_opt (v : option string) : string :=
  match v with Some s => s | None => "None" end.
Definition str_opt_int (v : option Z) : string :=
  match v with Some n => Text.str_of_int n | None => "None" end.

Definition print_detailed_results (collscan_queries : list query_info)
           (show_details : bool) (limit : Z) : M unit :=
  match collscan_queries with
  | [] => ret tt
  | _ =>
      print (nl ++ banner) ;;
      print ("DETAILED RESULTS (showing first " ++ Text.str_of_int limit ++ ")") ;;
      print banner ;;
      for_each (enumerate (slice_to limit collscan_queries) 1)
        (fun '(i, q) =>
           print (nl ++ "--- Query #" ++ Text.str_of_int i ++ " (Line "
                     ++ Text.str_of_int (line_number q) ++ ") ---") ;;
           when (truthy_str (timestamp q))
             (print ("Timestamp:      " ++ str_opt (timestamp q))) ;;
           when (truthy_str (collection q))
             (print ("Collection:     " ++ str_opt (collection q))) ;;
           when (is_some (duration_ms q))
             (print ("Duration:       " ++ str_opt_int (duration_ms q) ++ "ms")) ;;
           when (is_some (docs_examined q))
             (print ("Docs Examined:  " ++ str_opt_int (docs_examined q))) ;;
           when (is_some (keys_examined q))
             (print ("Keys Examined:  " ++ str_opt_int (keys_examined q))) ;;
           when (truthy_str (plan_summary q))
             (print ("Plan:           " ++ str_opt (plan_summary q))) ;;
           when (truthy_str (query q) && show_details)
             (print ("Query:          " ++ str_opt (query q))) ;;
           when show_details
             (print ("Raw:            " ++ Text.take 100 (raw_line q) ++ "..."))) ;;
      when (limit <? len collscan_queries)
        (print (nl ++ "... and " ++ Text.str_of_int (len collscan_queries - limit)
                   ++ " more queries"))
  end.

(** ** [export_to_file] *)

Definition rule : string := Text.repeat_char "-" 70.

(** The seven strings written for record number [i]. *)
Definition export_block (i : Z) (q : query_info) : list string :=
  [ "Query #" ++ Text.str_of_int i ++ " (Line "
      ++ Text.str_of_int (line_number q) ++ ")" ++ nl;
    "  Timestamp:     " ++ str_opt (timestamp q) ++ nl;
    "  Collection:    " ++ str_opt (collection q) ++ nl;
    "  Duration:      " ++ str_opt_int (duration_ms q) ++ "ms" ++ nl;
    "  Docs Examined: " ++ str_opt_int (docs_examined q) ++ nl;
    "  Query:         " ++ str_opt (query q) ++ nl;
    "  Raw Line:      " ++ raw_line q ++ nl;
    nl ++ rule ++ nl ++ nl ].

Definition export_to_file (collscan_queries : list query_info)
           (output_file : string) : M unit :=
  try_except
    (open_write output_file ;;
     write output_file ("MongoDB COLLSCAN Queries Report" ++ nl) ;;
     write output_file (banner ++ nl ++ nl) ;;
     for_each (enumerate collscan_queries 1)
       (fun '(i, q) =>
          for_each (export_block i q) (write output_file)) ;;
     print (nl ++ "✓ Results exported to: " ++ output_file))
    (fun e => print ("✗ Error exporting to file: " ++ exn_str e)).

(** ** [main] *)

Definition LOG_FILE_PATH : string :=
  "C:\Users\Myself\Downloads\sample_mongodb_log.log".
Definition EXPORT_RESULTS : bool := true.
Definition OUTPUT_FILE : string := "collscan_report.txt".
Definition SHOW_DETAILS : bool := true.
Definition LIMIT : Z := 20.

Definition closing : M unit :=
  print (nl ++ banner) ;;
  print "Analysis Complete!" ;;
  print banner.

Definition main : M unit :=
  print (nl ++ "MongoDB COLLSCAN Query Finder") ;;
  collscan_queries <- parse_mongo_log LOG_FILE_PATH ;;
  print_summary collscan_queries ;;
  print_detailed_results collscan_queries SHOW_DETAILS LIMIT ;;
  when (EXPORT_RESULTS && negb (match collscan_queries with [] => true | _ => false end))
    (export_to_file collscan_queries OUTPUT_FILE) ;;
  closing.

(** ** Inputs and notions the properties are stated with *)

(** The line of the round-trip example. *)
Definition sample_line : string :=
  "2024-12-10T10:30:45.123+0000 COLLSCAN ns: mydb.orders query: {status:"
  ++ String Text.dquote "pending" ++ String Text.dquote
  "} 150ms docsExamined: 5000 keysExamined: 0 planSummary: COLLSCAN".

(** A line made of the marker and the five fields of the partial example. *)
Definition partial_line : string :=
  "COLLSCAN ns: test.users 123ms docsExamined: 50 keysExamined: 5 planSummary: COLLSCAN".

(** The least number of characters a regex consumes. *)
Definition min_len (r : Re.regex) : nat :=
  fold_right (fun p n => (Re.p_min p + n)%nat) O r.

(** The lines of a file paired with their physical, 1-based numbers. *)
Definition numbered (lines : list string) : list (Z * string) :=
  enumerate lines 1.

Definition has_marker (il : Z * string) : bool := Text.str_in marker (snd il).

(** The record the extractor makes of a numbered line. *)
Definition record_of (il : Z * string) : query_info :=
  parse_collscan_line (snd il) (fst il).



(** A world with one readable log of four lines, a file that is missing, a
    file that cannot be read, and a device that accepts any write. *)
Definition demo_log : list string :=
  [ "2024-12-10T10:30:44.000+0000 I NETWORK connection accepted" ++ nl;
    sample_line ++ nl;
    "2024-12-10T10:30:46.000+0000 I COMMAND find 3ms" ++ nl;
    partial_line ++ nl ].

Definition demo_world : world :=
  World (fun path =>
           if String.eqb path "mongod.log" then inr (InputFile demo_log None)
           else if String.eqb path "locked.log"
                then inl (OSError "[Errno 13] Permission denied: 'locked.log'")
                else inl (FileNotFoundError
                            ("[Errno 2] No such file or directory: '" ++ path ++ "'")))
        (fun path =>
           if String.prefix "missing/" path
           then Some (FileNotFoundError
                        ("[Errno 2] No such file or directory: '" ++ path ++ "'"))
           else None)
        None
        (OSError "[Errno 28] No space left on device")
        []
        [].


(** A record has a namespace when its [collection] is a non-empty text. *)
Definition has_namespace (q : query_info) : bool := truthy_str (collection q).

(** The namespaces of the records that have one, in the order of the
    records. *)
Definition namespaces (qs : list query_info) : list string :=
  flat_map (fun q => match collection q with
                     | Some c => if truthy_str (Some c) then [c] else []
                     | None => []
                     end) qs.

(** The dict obtained by counting the keys [ks] one after the other. *)
Definition counts (ks : list string) : list (string * Z) :=
  fold_left (fun d k => bump k d) ks [].

(** The duration of a record, 0 when none was extracted. *)
Definition known_duration (q : query_info) : Z :=
  match duration_ms q with Some d => d | None => 0 end.

(** The sum of all the durations that were extracted. *)
Definition sum_durations (qs : list query_info) : Z :=
  fold_right (fun q acc => known_duration q + acc) 0 qs.

(** A slow query: a duration above 100 ms. *)
Definition is_slow (q : query_info) : bool :=
  match duration_ms q with Some d => 100 <? d | None => false end.

(** [x] stands somewhere before [y] in a list. *)
Inductive before {A} (x y : A) : list A -> Prop :=
| before_here l : In y l -> before x y (x :: l)
| before_later z l : before x y l -> before x y (z :: l).

(** The lines of the summary. *)
Definition summary_head (qs : list query_info) : list string :=
  [ nl ++ banner; "SUMMARY"; banner;
    nl ++ "Total COLLSCAN queries found: " ++ Text.str_of_int (len qs) ].

Definition table_row (row : string * Z) : string :=
  "  " ++ fst row ++ ": " ++ Text.str_of_int (snd row).

Definition table_title : string := nl ++ "COLLSCAN queries by collection:".

(** The grouping shown in the summary, in the order it is shown. *)
Definition summary_table (qs : list query_info) : list (string * Z) :=
  sorted_desc (by_collection (tally_of qs)).

Definition table_lines (qs : list query_info) : list string :=
  match summary_table qs with
  | [] => []
  | rows => table_title :: map table_row rows
  end.

Definition slow_line (qs : list query_info) : string :=
  nl ++ "Slow COLLSCAN queries (>100ms): "
     ++ Text.str_of_int (len (filter is_slow qs)).

Definition average_line (avg : Float.float) : string :=
  "Average duration: " ++ Float.format_2f avg ++ "ms".


(** The sum of the counts of a grouping. *)
Definition sum_counts (d : list (string * Z)) : Z :=
  fold_right (fun row acc => snd row + acc) 0 d.

(** Four marker lines over three namespaces, two of them with two records
    each, and one marker line without a namespace. *)
Definition tie_log : list string :=
  [ "COLLSCAN ns: shop.b 150ms" ++ nl;
    "COLLSCAN ns: shop.a 20ms" ++ nl;
    "COLLSCAN no namespace here" ++ nl;
    "COLLSCAN ns: shop.a 130ms" ++ nl;
    "COLLSCAN ns: shop.c" ++ nl;
    "COLLSCAN ns: shop.b 4ms" ++ nl ].

Definition tie_records : list query_info := scan_lines tie_log.


(** A text that ends a number with exactly two decimals. *)
Definition two_decimals (s : string) : Prop :=
  exists ip c1 c2,
    s = ip ++ "." ++ String c1 (String c2 "")
    /\ Text.isdigit c1 = true /\ Text.isdigit c2 = true.

(** Two records, of which only the first has a duration. *)
Definition half_known : list query_info :=
  scan_lines [ "COLLSCAN ns: shop.a 150ms" ++ nl; "COLLSCAN ns: shop.a" ++ nl ].

(** A world whose every log is the single line COLLSCAN. *)
Definition bare_world : world :=
  World (fun _ => inr (InputFile ["COLLSCAN" ++ nl] None))
        (fun _ => None) None (OSError "[Errno 28] No space left on device")
        [] [].

Definition bare_record : query_info :=
  QueryInfo 1 None None None None None None None "COLLSCAN".

(** The three parts the summary is said to contain: the title of the
    table, the count of slow queries and the average. *)
Definition summary_complete (out : list string) : Prop :=
  In table_title out
  /\ (exists l, In l out
                /\ String.prefix (nl ++ "Slow COLLSCAN queries") l = true)
  /\ (exists l, In l out /\ String.prefix "Average duration" l = true).


(** The concatenation of the strings written to a file. *)
Definition join (l : list string) : string := fold_right String.append "" l.

(** All the strings [export_to_file] writes, in order. *)
Definition export_chunks (qs : list query_info) : list string :=
  ("MongoDB COLLSCAN Queries Report" ++ nl)
    :: (banner ++ nl ++ nl)
    :: flat_map (fun iq => export_block (fst iq) (snd iq)) (enumerate qs 1).

Definition export_ok_line (path : string) : string :=
  nl ++ "✓ Results exported to: " ++ path.

Definition export_error_line (e : exn) : string :=
  "✗ Error exporting to file: " ++ exn_str e.

(** A device that accepts five more write calls. *)
Definition full_world : world :=
  World (fs_open_r demo_world) (fun _ => None) (Some 5%nat)
        (fs_write_error demo_world) [] [].


(** A log of twenty-five marker lines, more than the detail view shows. *)
Definition long_log : list string :=
  repeat ("COLLSCAN ns: shop.a 5ms" ++ nl) 25.

(** A world in which every log reads as [demo_log] and no file can be
    created. *)
Definition stuck_world : world :=
  World (fun _ => inr (InputFile demo_log None))
        (fun path => Some (FileNotFoundError
                             ("[Errno 2] No such file or directory: '"
                                ++ path ++ "'")))
        None (fs_write_error demo_world) [] [].


(** ** What a pattern matches, read without the matcher *)

(** Every character of [t] is in the class [k]. *)
Fixpoint all_match (k : Re.cclass) (t : string) : bool :=
  match t with
  | EmptyString => true
  | String c t' => Re.class_matches k c && all_match k t'
  end.

(** [t] is a run of the class of [p] whose length the bounds of [p] allow. *)
Definition piece_matches (p : Re.piece) (t : string) : Prop :=
  all_match (Re.p_class p) t = true
  /\ (Re.p_min p <= String.length t)%nat
  /\ match Re.p_max p with
     | Some h => (String.length t <= Nat.max (Re.p_min p) h)%nat
     | None => True
     end.

(** [t] is made of one run for each piece of [r], in order. *)
Fixpoint regex_matches (r : Re.regex) (t : string) : Prop :=
  match r with
  | [] => t = EmptyString
  | p :: r' => exists t1 t2,
      t = t1 ++ t2 /\ piece_matches p t1 /\ regex_matches r' t2
  end.

(** No character of [t] is whitespace. *)
Fixpoint no_space (t : string) : bool :=
  match t with
  | EmptyString => true
  | String c t' => negb (Text.isspace c) && no_space t'
  end.

(** No character of [t] is [c]. *)
Fixpoint lacks (c : ascii) (t : string) : bool :=
  match t with
  | EmptyString => true
  | String d t' => negb (Ascii.eqb c d) && lacks c t'
  end.


(** [n / d < 2^t], written on integers. *)
Definition below_pow2 (n d t : Z) : Prop :=
  fst (Float.scaled n d t) < snd (Float.scaled n d t).

(** ** Computations that only print *)

(** [c] returns normally and does nothing but print the lines [out]. *)
Definition prints (c : M unit) (out : list string) : Prop :=
  forall pre w0,
    c (set_stdout pre w0) = (Return tt, set_stdout (pre ++ out)%list w0).

(** The line a guarded [print] adds. *)
Definition line_if (b : bool) (s : string) : list string :=
  if b then [s] else [].

(** The lines of the detail view for the record [snd iq], shown as number
    [fst iq]. *)
Definition detail_block (show_details : bool) (iq : Z * query_info)
  : list string :=
  let i := fst iq in
  let q := snd iq in
  ([ (nl ++ "--- Query #" ++ Text.str_of_int i ++ " (Line "
         ++ Text.str_of_int (line_number q) ++ ") ---")%string ]
   ++ (line_if (truthy_str (timestamp q))
               ("Timestamp:      " ++ str_opt (timestamp q))%string
   ++ (line_if (truthy_str (collection q))
               ("Collection:     " ++ str_opt (collection q))%string
   ++ (line_if (is_some (duration_ms q))
               ("Duration:       " ++ str_opt_int (duration_ms q) ++ "ms")%string
   ++ (line_if (is_some (docs_examined q))
               ("Docs Examined:  " ++ str_opt_int (docs_examined q))%string
   ++ (line_if (is_some (keys_examined q))
               ("Keys Examined:  " ++ str_opt_int (keys_examined q))%string
   ++ (line_if (truthy_str (plan_summary q))
               ("Plan:           " ++ str_opt (plan_summary q))%string
   ++ (line_if (truthy_str (query q) && show_details)
               ("Query:          " ++ str_opt (query q))%string
   ++ line_if show_details
              ("Raw:            " ++ Text.take 100 (raw_line q) ++ "...")%string))))))))%list.

Definition detail_head (limit : Z) : list string :=
  [ nl ++ banner;
    "DETAILED RESULTS (showing first " ++ Text.str_of_int limit ++ ")";
    banner ].

Definition more_line (qs : list query_info) (limit : Z) : string :=
  nl ++ "... and " ++ Text.str_of_int (len qs - limit) ++ " more queries".

(** All the lines of the detail view. *)
Definition detail_output (qs : list query_info) (show_details : bool)
           (limit : Z) : list string :=
  match qs with
  | [] => []
  | _ => (detail_head limit
          ++ flat_map (detail_block show_details)
                      (enumerate (slice_to limit qs) 1)
          ++ line_if (limit <? len qs) (more_line qs limit))%list
  end.


(** A world that already holds a file of its own. *)
Definition kept_world : world :=
  World (fs_open_r demo_world) (fs_open_w demo_world) None
        (fs_write_error demo_world) [("notes.txt", "keep")] [].


(** * Properties *)

(** ** The field extractor on the two example lines *)

(** C1: on the round-trip line the extractor yields the timestamp
    2024-12-10T10:30:45.123+0000, the namespace mydb.orders, the duration
    150, 5000 documents examined, 0 keys examined and the plan COLLSCAN,
    whatever the line number. *)
Theorem parse_sample_line : forall n : Z,
  let q := parse_collscan_line sample_line n in
  timestamp q = Some "2024-12-10T10:30:45.123+0000"
  /\ collection q = Some "mydb.orders"
  /\ duration_ms q = Some 150
  /\ docs_examined q = Some 5000
  /\ keys_examined q = Some 0
  /\ plan_summary q = Some "COLLSCAN".
Proof.
  intro n. vm_compute. repeat split.
Qed.

(** The [collection:] pattern is the fallback of the namespace, with or
    without quotes around the name. *)
Example parse_collection_fallback :
  collection (parse_collscan_line
                ("COLLSCAN collection: " ++ String Text.dquote "users"
                   ++ String Text.dquote " 7ms") 1)
  = Some "users"
  /\ collection (parse_collscan_line "COLLSCAN collection: users ns: a.b" 1)
     = Some "a.b".
Proof. split; vm_compute; reflexivity. Qed.

(** The duration is the first run of digits that [ms] follows; the query
    stops at the first closing brace. *)
Example parse_first_match :
  duration_ms (parse_collscan_line "COLLSCAN 12 ab34ms 56ms" 1) = Some 34
  /\ query (parse_collscan_line "COLLSCAN query: {a: {b: 1}} 5ms" 1)
     = Some "{a: {b: 1}"
  /\ timestamp (parse_collscan_line "2024-12-10 10:30:45 COLLSCAN" 1) = None.
Proof. repeat split; vm_compute; reflexivity. Qed.

(** ** What a match consumes *)

Lemma many_consumes {R} k (cont : string -> option R) x :
  forall s lo hi,
    Re.many k lo hi s cont = Some x ->
    exists s', cont s' = Some x /\ (String.length s' + lo <= String.length s)%nat.
Proof.
  induction s as [|c s IH]; intros lo hi H.
  - destruct lo as [|lo]; simpl in H; [|discriminate].
    exists EmptyString. split; [|simpl; lia].
    destruct hi as [[|h]|]; exact H.
  - destruct lo as [|lo]; simpl in H.
    + assert (Hhere : cont (String c s) = Some x ->
                      exists s', cont s' = Some x
                                 /\ (String.length s' + 0 <= String.length (String c s))%nat).
      { intro Hc. exists (String c s). split; [exact Hc | simpl; lia]. }
      assert (Hrec : forall hi', Re.many k 0 hi' s cont = Some x ->
                      exists s', cont s' = Some x
                                 /\ (String.length s' + 0 <= String.length (String c s))%nat).
      { intros hi' Hm. destruct (IH _ _ Hm) as (s' & Hs' & Hl).
        exists s'. split; [exact Hs' | simpl; lia]. }
      destruct hi as [[|h]|]; [auto| |];
        (destruct (Re.class_matches k c); [|auto];
         match type of H with
         | match ?m with _ => _ end = _ =>
             destruct m eqn:Hm; [inversion H; subst; eapply Hrec; exact Hm | auto]
         end).
    + destruct (Re.class_matches k c); [|discriminate].
      destruct (IH _ _ H) as (s' & Hs' & Hl).
      exists s'. split; [exact Hs' | simpl; lia].
Qed.

Lemma seq_consumes {R} (cont : string -> option R) x :
  forall r s,
    Re.seq r s cont = Some x ->
    exists s', cont s' = Some x /\ (String.length s' + min_len r <= String.length s)%nat.
Proof.
  induction r as [|p r IH]; intros s H; simpl in H.
  - exists s. split; [exact H | simpl; lia].
  - apply many_consumes in H. destruct H as (s1 & H1 & L1).
    apply IH in H1. destruct H1 as (s2 & H2 & L2).
    exists s2. split; [exact H2 | simpl; lia].
Qed.

Lemma take_length n : forall s, (n <= String.length s)%nat ->
  String.length (Text.take n s) = n.
Proof.
  induction n as [|n IH]; intros [|c s] H; simpl in *; try lia.
  rewrite IH; lia.
Qed.

Lemma match_here_group p s m :
  Re.match_here p s = Some m ->
  (min_len (Re.grp p) <= String.length (Re.group1 m))%nat.
Proof.
  unfold Re.match_here. intro H.
  apply seq_consumes in H. destruct H as (s1 & H & _).
  apply seq_consumes in H. destruct H as (s2 & H & L).
  apply seq_consumes in H. destruct H as (s3 & H & _).
  inversion H; subst; simpl. unfold Re.between.
  rewrite take_length; lia.
Qed.

(** The group of a match is at least as long as the group's pattern
    requires. *)
Lemma search_group p : forall s m,
  Re.search p s = Some m ->
  (min_len (Re.grp p) <= String.length (Re.group1 m))%nat.
Proof.
  induction s as [|c s IH]; intros m H; simpl in H.
  - destruct (Re.match_here p EmptyString) eqn:E; [|discriminate].
    inversion H; subst. eapply match_here_group; eauto.
  - destruct (Re.match_here p (String c s)) eqn:E.
    + inversion H; subst. eapply match_here_group; eauto.
    + auto.
Qed.

Lemma ns_group_truthy line m :
  Re.search Patterns.ns_re line = Some m ->
  truthy_str (Some (Re.group1 m)) = true.
Proof.
  intro H. apply search_group in H. simpl in H.
  destruct (Re.group1 m); simpl in *; [lia | reflexivity].
Qed.

(** ** The line scanner *)


Lemma scan_fold : forall lines acc k,
  fold_left scan_line lines (acc, k)
  = ((acc ++ map record_of (filter has_marker (enumerate lines (k + 1))))%list,
     k + len lines).
Proof.
  unfold len.
  induction lines as [|l lines IH]; intros acc k.
  - simpl. rewrite app_nil_r. f_equal. lia.
  - cbn [fold_left enumerate filter]. unfold scan_line at 2.
    unfold has_marker at 1. cbn [snd].
    destruct (Text.str_in marker l); cbn [truthy_info].
    + rewrite IH. cbn [map]. rewrite <- app_assoc. simpl app.
      f_equal. cbn [List.length]. lia.
    + rewrite IH. f_equal. cbn [List.length]. lia.
Qed.

(** The records of a file are those of its marker lines, each made from
    the line and its physical number, in the order of the file. *)
Lemma scan_lines_spec lines :
  scan_lines lines = map record_of (filter has_marker (numbered lines)).
Proof.
  unfold scan_lines, numbered. rewrite scan_fold. reflexivity.
Qed.


Lemma parse_raw_line line n :
  raw_line (parse_collscan_line line n) = Text.strip line.
Proof.
  unfold parse_collscan_line.
  repeat match goal with
         | |- context [match ?x with _ => _ end] => destruct x
         end; reflexivity.
Qed.










(** ** The field extractor in general *)


(** ** The summary *)

Lemma tally_fold : forall qs t,
  fold_left tally_step qs t
  = Tally (fold_left (fun d k => bump k d) (namespaces qs) (by_collection t))
          (total_duration t + sum_durations qs)
          (slow_queries t ++ filter is_slow qs)%list.
Proof.
  induction qs as [|q qs IH]; intro t.
  - simpl. rewrite Z.add_0_r, app_nil_r. destruct t; reflexivity.
  - cbn [fold_left]. rewrite IH. clear IH.
    change (sum_durations (q :: qs))
      with (known_duration q + sum_durations qs).
    change (filter is_slow (q :: qs))
      with (if is_slow q then q :: filter is_slow qs else filter is_slow qs).
    change (namespaces (q :: qs))
      with ((match collection q with
             | Some c => if truthy_str (Some c) then [c] else []
             | None => []
             end) ++ namespaces qs)%list.
    unfold tally_step, is_slow, known_duration.
    destruct (collection q) as [c|]; destruct (duration_ms q) as [d|];
      cbn [truthy_int]; try destruct (truthy_str (Some c));
      try (destruct (Z.eqb_spec d 0) as [->|Hd]; cbn [negb]);
      try destruct (100 <? d) eqn:Hslow;
      cbn [by_collection total_duration slow_queries app fold_left];
      rewrite <- ?app_assoc; cbn [app]; f_equal; try lia; try reflexivity.
Qed.

Lemma tally_spec qs :
  tally_of qs = Tally (counts (namespaces qs)) (sum_durations qs) (filter is_slow qs).
Proof.
  unfold tally_of. rewrite tally_fold. reflexivity.
Qed.

Lemma for_each_print {A} (f : A -> string) : forall (l : list A) w,
  for_each l (fun x => print (f x)) w
  = (Return tt, set_stdout (stdout w ++ map f l)%list w) \/ l = [].
Proof.
  induction l as [|x l IH]; intro w; [right; reflexivity|left].
  cbn [for_each map]. unfold bind. unfold print at 1.
  destruct (IH (set_stdout (stdout w ++ [f x])%list w)) as [E| ->].
  - rewrite E. cbn [stdout set_stdout]. rewrite <- app_assoc. reflexivity.
  - reflexivity.
Qed.

Lemma for_each_ext {A} (f g : A -> M unit) :
  (forall x, f x = g x) -> forall l, for_each l f = for_each l g.
Proof.
  intros H l. induction l as [|x l IH]; [reflexivity|].
  cbn [for_each]. rewrite H, IH. reflexivity.
Qed.

Lemma for_each_print_out {A} (f : A -> string) (l : list A) w :
  l <> [] ->
  for_each l (fun x => print (f x)) w
  = (Return tt, set_stdout (stdout w ++ map f l)%list w).
Proof.
  intro H. destruct (for_each_print f l w) as [E|E]; [exact E|contradiction].
Qed.

Lemma insert_desc_cons x l : exists y l', insert_desc x l = y :: l'.
Proof.
  destruct l as [|y l]; simpl; [eauto|].
  destruct (snd x <? snd y); eauto.
Qed.

Lemma sorted_desc_nil l : sorted_desc l = [] -> l = [].
Proof.
  destruct l as [|x l]; [reflexivity|]. simpl.
  destruct (insert_desc_cons x (sorted_desc l)) as (y & l' & E).
  rewrite E. discriminate.
Qed.

(** Closes a goal that asks for the lines printed after the table, once
    the run of [print_summary] has been rewritten. *)
Ltac summary_tail qs :=
  destruct (filter is_slow qs);
  [ exists []; cbn [snd stdout set_stdout]; rewrite app_nil_r; reflexivity
  | destruct (Float.true_div (sum_durations qs) (len qs));
    eexists; cbn [snd stdout set_stdout]; reflexivity ].

(** What [print_summary] prints for a non-empty list of records, and when
    it raises. *)
Lemma print_summary_runs qs w :
  qs <> [] ->
  print_summary qs w
  = match filter is_slow qs with
    | [] => (Return tt,
             set_stdout (stdout w ++ summary_head qs ++ table_lines qs)%list w)
    | _ =>
        match Float.true_div (sum_durations qs) (len qs) with
        | Return avg =>
            (Return tt,
             set_stdout (stdout w ++ summary_head qs ++ table_lines qs
                           ++ [slow_line qs; average_line avg])%list w)
        | Raise e =>
            (Raise e,
             set_stdout (stdout w ++ summary_head qs ++ table_lines qs
                           ++ [slow_line qs])%list w)
        end
    end.
Proof.
  intro Hne. destruct qs as [|q0 qs0]; [contradiction|].
  unfold print_summary. cbv beta iota.
  remember (q0 :: qs0) as qs eqn:Eqs. clear Eqs Hne.
  unfold table_lines, summary_table, slow_line, average_line.
  rewrite tally_spec. cbn [by_collection total_duration slow_queries].
  unfold bind at 1 2 3 4. unfold print at 1 2 3 4.
  cbn [stdout set_stdout].
  rewrite <- !app_assoc. cbn [app].
  change [nl ++ banner; "SUMMARY"; banner;
          nl ++ "Total COLLSCAN queries found: " ++ Text.str_of_int (len qs)]
    with (summary_head qs).
  set (w1 := set_stdout (stdout w ++ summary_head qs)%list w).
  assert (Htab :
    (match counts (namespaces qs) with
     | [] => ret tt
     | _ => print (nl ++ "COLLSCAN queries by collection:") ;;
            for_each (sorted_desc (counts (namespaces qs)))
              (fun '(collection, count) =>
                 print ("  " ++ collection ++ ": " ++ Text.str_of_int count))
     end) w1
    = (Return tt,
       set_stdout (stdout w ++ summary_head qs
                     ++ match sorted_desc (counts (namespaces qs)) with
                        | [] => []
                        | rows => table_title :: map table_row rows
                        end)%list w)).
  { destruct (counts (namespaces qs)) as [|r d] eqn:Ec.
    - cbn [sorted_desc]. unfold ret, w1. rewrite app_nil_r. reflexivity.
    - destruct (sorted_desc (r :: d)) as [|r' d'] eqn:Es.
      + apply sorted_desc_nil in Es. discriminate.
      + unfold bind, print at 1.
        rewrite (for_each_ext _ (fun x => print (table_row x)))
          by (intros [c n]; reflexivity).
        rewrite for_each_print_out by discriminate.
        unfold w1. cbn [stdout set_stdout].
        rewrite <- !app_assoc. reflexivity. }
  change (set_stdout (stdout w ++ summary_head qs)%list (set_stdout _ _)) with w1.
  unfold bind at 1. rewrite Htab.
  destruct (filter is_slow qs) as [|s0 sl] eqn:Es.
  - reflexivity.
  - unfold bind, print at 1. cbn [stdout set_stdout].
    destruct (Float.true_div (sum_durations qs) (len qs)) as [avg|e].
    + unfold print. cbn [stdout set_stdout].
      rewrite <- ?app_assoc. cbn [app]. rewrite <- ?app_assoc. reflexivity.
    + unfold raise. rewrite <- ?app_assoc. reflexivity.
Qed.

(** ** Counting by namespace *)

Lemma counts_snoc ks k : counts (ks ++ [k]) = bump k (counts ks).
Proof. unfold counts. rewrite fold_left_app. reflexivity. Qed.

Lemma bump_keys k : forall d a,
  In a (map fst (bump k d)) <-> a = k \/ In a (map fst d).
Proof.
  induction d as [|[k' c] d IH]; intro a; simpl.
  - intuition.
  - destruct (String.eqb_spec k' k) as [->|Hne]; simpl.
    + intuition.
    + rewrite IH. intuition.
Qed.

Lemma counts_keys : forall ks a, In a (map fst (counts ks)) <-> In a ks.
Proof.
  induction ks as [|k ks IH] using rev_ind; intro a.
  - simpl. tauto.
  - rewrite counts_snoc, bump_keys, IH, in_app_iff. simpl. intuition.
Qed.

Lemma bump_in k : forall d b m,
  In (b, m) (bump k d) ->
  (exists m', In (b, m') d) \/ (b = k /\ ~ In k (map fst d)).
Proof.
  induction d as [|[k' c] d IH]; intros b m H; simpl in H.
  - destruct H as [H|[]]. inversion H; subst. right. split; auto.
  - destruct (String.eqb_spec k' k) as [->|Hne]; simpl in H.
    + destruct H as [H|H].
      * inversion H; subst. left. exists c. left. reflexivity.
      * left. exists m. right. exact H.
    + destruct H as [H|H].
      * inversion H; subst. left. exists m. left. reflexivity.
      * apply IH in H. destruct H as [[m' H]|[-> Hn]].
        -- left. exists m'. right. exact H.
        -- right. split; [reflexivity|]. simpl. intuition.
Qed.

Lemma in_keys {A B} (a : A) (n : B) l : In (a, n) l -> In a (map fst l).
Proof. intro H. apply (in_map fst) in H. exact H. Qed.

Lemma bump_before k : forall d a n b m,
  before (a, n) (b, m) (bump k d) ->
  (exists n' m', before (a, n') (b, m') d)
  \/ (b = k /\ ~ In k (map fst d) /\ In a (map fst d)).
Proof.
  induction d as [|[k' c] d IH]; intros a n b m H; simpl in H.
  - inversion H as [l Hin|z l Hb]; subst; [destruct Hin | inversion Hb].
  - destruct (String.eqb_spec k' k) as [->|Hne].
    + left. inversion H as [l Hin|z l Hb]; subst.
      * exists c, m. apply before_here. exact Hin.
      * exists n, m. apply before_later. exact Hb.
    + inversion H as [l Hin|z l Hb]; subst.
      * apply bump_in in Hin. destruct Hin as [[m' Hin]|[-> Hn]].
        -- left. exists c, m'. apply before_here. exact Hin.
        -- right. split; [reflexivity|]. simpl. intuition.
      * apply IH in Hb. destruct Hb as [(n' & m' & Hb)|(-> & Hn & Ha)].
        -- left. exists n', m'. apply before_later. exact Hb.
        -- right. split; [reflexivity|]. simpl. intuition.
Qed.

Lemma before_in {A} (x y : A) l : before x y l -> In x l /\ In y l.
Proof.
  induction 1 as [l Hin|z l Hb [IHx IHy]]; simpl; auto.
Qed.

(** The keys of the dict stand in the order in which they were first
    counted. *)
Lemma counts_before : forall ks a n b m,
  before (a, n) (b, m) (counts ks) ->
  exists ks1 ks2, ks = (ks1 ++ a :: ks2)%list /\ ~ In b ks1.
Proof.
  induction ks as [|k ks IH] using rev_ind; intros a n b m H.
  - inversion H.
  - rewrite counts_snoc in H. apply bump_before in H.
    destruct H as [(n' & m' & H)|(-> & Hn & Ha)].
    + apply IH in H. destruct H as (ks1 & ks2 & -> & Hb).
      exists ks1, (ks2 ++ [k])%list. split; [|exact Hb].
      rewrite <- app_assoc. reflexivity.
    + rewrite counts_keys in Hn, Ha.
      apply in_split in Ha. destruct Ha as (ks1 & ks2 & ->).
      exists ks1, (ks2 ++ [k])%list. split.
      * rewrite <- app_assoc. reflexivity.
      * intro Hin. apply Hn. apply in_or_app. left. exact Hin.
Qed.

Lemma namespaces_app qs1 qs2 :
  namespaces (qs1 ++ qs2) = (namespaces qs1 ++ namespaces qs2)%list.
Proof. unfold namespaces. apply flat_map_app. Qed.

Lemma namespaces_in : forall qs b,
  In b (namespaces qs) <->
  exists q, In q qs /\ collection q = Some b /\ b <> EmptyString.
Proof.
  induction qs as [|q qs IH]; intro b.
  - simpl. split; [tauto|]. intros (q & [] & _).
  - change (namespaces (q :: qs))
      with ((match collection q with
             | Some c => if truthy_str (Some c) then [c] else []
             | None => []
             end) ++ namespaces qs)%list.
    rewrite in_app_iff, IH. split.
    + intros [H|(q' & Hin & Hc)].
      * exists q. split; [left; reflexivity|].
        destruct (collection q) as [[|ch c]|]; simpl in H; try contradiction.
        destruct H as [<-|[]]. split; [reflexivity|discriminate].
      * exists q'. split; [right; exact Hin | exact Hc].
    + intros (q' & [<-|Hin] & Hc & Hne).
      * left. rewrite Hc. destruct b; [contradiction|]. simpl. auto.
      * right. exists q'. auto.
Qed.

Lemma namespaces_split : forall qs ks1 a ks2,
  namespaces qs = (ks1 ++ a :: ks2)%list ->
  exists pre q post,
    qs = (pre ++ q :: post)%list /\ collection q = Some a
    /\ namespaces pre = ks1.
Proof.
  induction qs as [|q qs IH]; intros ks1 a ks2 H.
  - destruct ks1; discriminate.
  - change (namespaces (q :: qs))
      with ((match collection q with
             | Some c => if truthy_str (Some c) then [c] else []
             | None => []
             end) ++ namespaces qs)%list in H.
    assert (Hskip : namespaces qs = (ks1 ++ a :: ks2)%list ->
                    namespaces [q] = [] ->
                    exists pre q' post,
                      (q :: qs = pre ++ q' :: post)%list /\ collection q' = Some a
                      /\ namespaces pre = ks1).
    { intros Hq Hn. destruct (IH _ _ _ Hq) as (pre & q' & post & -> & Hc & Hp).
      exists (q :: pre), q', post. split; [reflexivity|]. split; [exact Hc|].
      change (q :: pre) with ([q] ++ pre)%list.
      rewrite namespaces_app, Hn. exact Hp. }
    destruct (collection q) as [c|] eqn:Ec.
    + destruct (truthy_str (Some c)) eqn:Et.
      * destruct ks1 as [|k ks1]; simpl in H; inversion H; subst.
        -- exists [], q, qs. auto.
        -- destruct (IH _ _ _ H2) as (pre & q' & post & -> & Hc & Hp).
           exists (q :: pre), q', post. split; [reflexivity|]. split; [exact Hc|].
           change (q :: pre) with ([q] ++ pre)%list.
           rewrite namespaces_app. unfold namespaces at 1. cbn [flat_map].
           rewrite Ec, Et. cbn [app]. rewrite Hp. reflexivity.
      * apply Hskip; [exact H|]. unfold namespaces. cbn [flat_map].
        rewrite Ec, Et. reflexivity.
    + apply Hskip; [exact H|]. unfold namespaces. cbn [flat_map].
      rewrite Ec. reflexivity.
Qed.

(** ** The stable descending sort *)

Lemma insert_desc_perm x : forall l, Permutation (insert_desc x l) (x :: l).
Proof.
  induction l as [|y l IH]; simpl; [reflexivity|].
  destruct (snd x <? snd y); [|reflexivity].
  rewrite IH. apply perm_swap.
Qed.

Lemma sorted_desc_perm : forall l, Permutation (sorted_desc l) l.
Proof.
  induction l as [|x l IH]; simpl; [reflexivity|].
  rewrite insert_desc_perm. constructor. exact IH.
Qed.

Lemma insert_desc_sorted x : forall l,
  StronglySorted (fun a b => snd b <= snd a) l ->
  StronglySorted (fun a b => snd b <= snd a) (insert_desc x l).
Proof.
  induction l as [|y l IH]; intro H; simpl.
  - constructor; constructor.
  - inversion H as [|? ? Hs Hf]; subst.
    destruct (snd x <? snd y) eqn:E.
    + constructor; [apply IH; exact Hs|].
      rewrite Forall_forall in *. intros z Hz.
      apply (Permutation_in _ (insert_desc_perm x l)) in Hz.
      destruct Hz as [<-|Hz]; [apply Z.ltb_lt in E; lia | apply Hf; exact Hz].
    + apply Z.ltb_ge in E. constructor; [exact H|].
      constructor; [exact E|].
      rewrite Forall_forall in *. intros z Hz. specialize (Hf z Hz). lia.
Qed.

Lemma sorted_desc_sorted : forall l,
  StronglySorted (fun a b => snd b <= snd a) (sorted_desc l).
Proof.
  induction l as [|x l IH]; simpl; [constructor|].
  apply insert_desc_sorted. exact IH.
Qed.

Lemma insert_desc_before z : forall l x y,
  before x y (insert_desc z l) -> snd x = snd y -> before x y (z :: l).
Proof.
  induction l as [|y0 l IH]; intros x y H E; simpl in H; [exact H|].
  destruct (snd z <? snd y0) eqn:Ez; [|exact H].
  apply Z.ltb_lt in Ez.
  inversion H as [l' Hin|z' l' Hb]; subst.
  - apply (Permutation_in _ (insert_desc_perm z l)) in Hin.
    destruct Hin as [<-|Hin]; [lia|].
    apply before_later. apply before_here. exact Hin.
  - apply IH in Hb; [|exact E].
    inversion Hb as [l' Hin|z' l' Hb']; subst.
    + apply before_here. right. exact Hin.
    + apply before_later. apply before_later. exact Hb'.
Qed.

(** Entries with equal counts keep the order they had before the sort. *)
Lemma sorted_desc_before : forall l x y,
  before x y (sorted_desc l) -> snd x = snd y -> before x y l.
Proof.
  induction l as [|z l IH]; intros x y H E; simpl in H; [exact H|].
  apply insert_desc_before in H; [|exact E].
  inversion H as [l' Hin|z' l' Hb]; subst.
  - apply before_here.
    apply (Permutation_in _ (sorted_desc_perm l)). exact Hin.
  - apply before_later. apply IH; assumption.
Qed.

Lemma bump_nodup k : forall d,
  NoDup (map fst d) -> NoDup (map fst (bump k d)).
Proof.
  induction d as [|[k' c] d IH]; intro H; simpl.
  - constructor; [intros []|constructor].
  - inversion H as [|? ? Hn Hd]; subst.
    destruct (String.eqb_spec k' k) as [->|Hne]; simpl.
    + constructor; assumption.
    + constructor; [|apply IH; exact Hd].
      rewrite bump_keys. intros [->|Hin]; [apply Hne; reflexivity|contradiction].
Qed.

Lemma bump_in_nodup k : forall d a n,
  NoDup (map fst d) ->
  In (a, n) (bump k d) ->
  (a <> k /\ In (a, n) d)
  \/ (a = k /\ In (k, n - 1) d)
  \/ (a = k /\ ~ In k (map fst d) /\ n = 1).
Proof.
  induction d as [|[k' c] d IH]; intros a n Hnd H; simpl in H.
  - destruct H as [H|[]]. inversion H; subst. right. right. auto.
  - inversion Hnd as [|? ? Hn Hd]; subst.
    destruct (String.eqb_spec k' k) as [->|Hne]; simpl in H.
    + destruct H as [H|H].
      * inversion H; subst. right. left. split; [reflexivity|].
        left. f_equal. lia.
      * left. split; [|right; exact H].
        intros ->. apply Hn. eapply in_keys; eauto.
    + destruct H as [H|H].
      * inversion H; subst. left. split; [exact Hne|left; reflexivity].
      * destruct (IH _ _ Hd H) as [[Ha Hin]|[[-> Hin]|(-> & Hk & ->)]].
        -- left. split; [exact Ha|right; exact Hin].
        -- right. left. split; [reflexivity|right; exact Hin].
        -- right. right. split; [reflexivity|]. split; [|reflexivity].
           simpl. intuition.
Qed.

(** Every namespace has one entry, and its count is the number of times it
    occurs. *)
Lemma counts_spec : forall ks,
  NoDup (map fst (counts ks))
  /\ forall a n, In (a, n) (counts ks) ->
                 n = Z.of_nat (count_occ string_dec ks a).
Proof.
  induction ks as [|k ks [IHn IHc]] using rev_ind.
  - split; [constructor|]. intros a n [].
  - rewrite counts_snoc. split; [apply bump_nodup; exact IHn|].
    intros a n H. rewrite count_occ_app. cbn [count_occ].
    destruct (bump_in_nodup _ _ _ _ IHn H) as [[Ha Hin]|[[-> Hin]|(-> & Hk & ->)]].
    + apply IHc in Hin. destruct (string_dec k a); [congruence|lia].
    + apply IHc in Hin. destruct (string_dec k k); [lia|congruence].
    + rewrite counts_keys in Hk.
      rewrite (proj1 (count_occ_not_In string_dec ks k) Hk).
      destruct (string_dec k k); [reflexivity|congruence].
Qed.

Lemma sum_counts_bump k : forall d, sum_counts (bump k d) = sum_counts d + 1.
Proof.
  induction d as [|[k' c] d IH]; simpl; [reflexivity|].
  destruct (String.eqb k' k); simpl; [|rewrite IH]; lia.
Qed.

Lemma sum_counts_counts : forall ks, sum_counts (counts ks) = len ks.
Proof.
  unfold len.
  induction ks as [|k ks IH] using rev_ind; [reflexivity|].
  rewrite counts_snoc, sum_counts_bump, IH, length_app. simpl. lia.
Qed.

Lemma sum_counts_perm d d' : Permutation d d' -> sum_counts d = sum_counts d'.
Proof.
  induction 1; simpl; lia.
Qed.

Lemma namespaces_length : forall qs,
  List.length (namespaces qs) = List.length (filter has_namespace qs).
Proof.
  induction qs as [|q qs IH]; [reflexivity|].
  change (namespaces (q :: qs))
    with ((match collection q with
           | Some c => if truthy_str (Some c) then [c] else []
           | None => []
           end) ++ namespaces qs)%list.
  cbn [filter]. unfold has_namespace at 1.
  destruct (collection q) as [c|]; [destruct (truthy_str (Some c))|];
    cbn [app List.length truthy_str]; rewrite IH; reflexivity.
Qed.

Lemma summary_table_perm qs :
  Permutation (summary_table qs) (counts (namespaces qs)).
Proof.
  unfold summary_table. rewrite tally_spec. apply sorted_desc_perm.
Qed.

Lemma table_lines_nil qs :
  table_lines qs = [] <-> filter has_namespace qs = [].
Proof.
  unfold table_lines.
  pose proof (summary_table_perm qs) as P.
  pose proof (namespaces_length qs) as L.
  pose proof (sum_counts_counts (namespaces qs)) as S.
  split; intro H.
  - destruct (summary_table qs); [|discriminate].
    apply Permutation_nil in P. rewrite P in S. unfold len in S. simpl in S.
    destruct (filter has_namespace qs); [reflexivity|simpl in L; lia].
  - rewrite H in L. simpl in L.
    destruct (namespaces qs); [|discriminate].
    apply Permutation_sym, Permutation_nil in P. rewrite P. reflexivity.
Qed.

(** C3: the table of the summary is in descending order of the counts;
    each namespace has one row, whose count is the number of records with
    that namespace; of two rows with equal counts the first is the
    namespace that was met first in the records; and these rows are what
    the summary prints after its head. *)
Theorem table_descending_stable : forall qs : list query_info,
  StronglySorted (fun x y => snd y <= snd x) (summary_table qs)
  /\ NoDup (map fst (summary_table qs))
  /\ (forall a n, In (a, n) (summary_table qs) ->
      n = Z.of_nat (count_occ string_dec (namespaces qs) a))
  /\ (forall a b n, before (a, n) (b, n) (summary_table qs) ->
      exists pre q post,
        qs = (pre ++ q :: post)%list /\ collection q = Some a
        /\ Forall (fun r => collection r <> Some b) pre)
  /\ (forall w, qs <> [] ->
      exists tail,
        stdout (snd (print_summary qs w))
        = (stdout w ++ summary_head qs
             ++ match summary_table qs with
                | [] => []
                | rows => table_title :: map table_row rows
                end ++ tail)%list).
Proof.
  intro qs.
  pose proof (summary_table_perm qs) as P.
  destruct (counts_spec (namespaces qs)) as [Hnd Hcnt].
  split; [|split; [|split; [|split]]].
  - unfold summary_table. apply sorted_desc_sorted.
  - eapply Permutation_NoDup; [|exact Hnd].
    apply Permutation_map, Permutation_sym, P.
  - intros a n H. apply Hcnt. eapply Permutation_in; [exact P|exact H].
  - intros a b n H.
    destruct (before_in _ _ _ H) as [_ Hb].
    apply (Permutation_in _ P), in_keys in Hb. rewrite counts_keys in Hb.
    apply namespaces_in in Hb. destruct Hb as (_ & _ & _ & Hbne).
    unfold summary_table in H. rewrite tally_spec in H.
    cbn [by_collection] in H.
    apply sorted_desc_before in H; [|reflexivity].
    apply counts_before in H. destruct H as (ks1 & ks2 & Hks & Hnb).
    apply namespaces_split in Hks.
    destruct Hks as (pre & q & post & -> & Hq & Hpre).
    exists pre, q, post. split; [reflexivity|]. split; [exact Hq|].
    apply Forall_forall. intros r Hr Hc. apply Hnb. rewrite <- Hpre.
    apply namespaces_in. exists r. auto.
  - intros w Hne. rewrite (print_summary_runs qs w Hne).
    fold (table_lines qs).
    summary_tail qs.
Qed.

Lemma table_descending_stable_witness :
  summary_table tie_records = [("shop.b", 2); ("shop.a", 2); ("shop.c", 1)]
  /\ exists pre q post,
       tie_records = (pre ++ q :: post)%list /\ collection q = Some "shop.b"
       /\ Forall (fun r => collection r <> Some "shop.a") pre.
Proof.
  assert (E : summary_table tie_records
              = [("shop.b", 2); ("shop.a", 2); ("shop.c", 1)])
    by (vm_compute; reflexivity).
  split; [exact E|].
  apply (proj1 (proj2 (proj2 (proj2 (table_descending_stable tie_records))))
           "shop.b" "shop.a" 2).
  rewrite E. apply before_here. left. reflexivity.
Defined.

(** ** The average *)

Lemma round_half_even_near n d :
  0 <= n -> 0 < d -> 2 * Z.abs (n - Float.round_half_even n d * d) <= d.
Proof.
  intros Hn Hd. unfold Float.round_half_even.
  pose proof (Z.div_mod n d ltac:(lia)) as E.
  pose proof (Z.mod_pos_bound n d Hd) as B.
  set (q := n / d) in *. set (r := n mod d) in *.
  destruct (d <? 2 * r) eqn:E1; cbn [orb].
  - apply Z.ltb_lt in E1. nia.
  - apply Z.ltb_ge in E1. destruct (2 * r =? d) eqn:E2; cbn [andb].
    + apply Z.eqb_eq in E2. destruct (Z.odd q); nia.
    + nia.
Qed.

Lemma round_half_even_nonneg n d :
  0 <= n -> 0 < d -> 0 <= Float.round_half_even n d.
Proof.
  intros Hn Hd. unfold Float.round_half_even.
  pose proof (Z.div_pos n d Hn Hd).
  destruct ((d <? 2 * (n mod d)) || ((2 * (n mod d) =? d) && Z.odd (n / d)));
    lia.
Qed.

(** The float [a / b] is the exact quotient rounded at the unit [2^exp]:
    its mantissa is within one half of [|a| / (|b| * 2^exp)], and its sign
    is the sign of the quotient. *)
Lemma true_div_near a b x :
  Float.true_div a b = Return x ->
  b <> 0
  /\ Float.f_neg x = xorb (a <? 0) (b <? 0)
  /\ 0 <= Float.f_mant x
  /\ 2 * Z.abs (fst (Float.scaled (Z.abs a) (Z.abs b) (Float.f_exp x))
                - Float.f_mant x
                  * snd (Float.scaled (Z.abs a) (Z.abs b) (Float.f_exp x)))
     <= snd (Float.scaled (Z.abs a) (Z.abs b) (Float.f_exp x)).
Proof.
  unfold Float.true_div.
  destruct (Z.eqb_spec b 0) as [|Hb]; [discriminate|].
  destruct (Z.eqb_spec (Z.abs a) 0) as [Ha|Ha].
  - intro H. inversion H; subst; clear H. cbn [Float.f_neg Float.f_mant Float.f_exp].
    split; [exact Hb|]. split; [reflexivity|]. split; [lia|].
    unfold Float.scaled. cbn [fst snd]. rewrite Ha. simpl. lia.
  - set (e := Z.max (Float.floor_log2_quot (Z.abs a) (Z.abs b) - 52) (-1074)).
    unfold Float.scaled.
    set (n' := Z.abs a * 2 ^ Z.max 0 (- e)).
    set (d' := Z.abs b * 2 ^ Z.max 0 e).
    assert (Hn : 0 <= n') by (subst n'; apply Z.mul_nonneg_nonneg;
                              [lia | apply Z.pow_nonneg; lia]).
    assert (Hd : 0 < d') by (subst d'; apply Z.mul_pos_pos;
                             [lia | apply Z.pow_pos_nonneg; lia]).
    destruct (2 ^ (1024 - e) <=? Float.round_half_even n' d'); [discriminate|].
    intro H. inversion H; subst x; clear H.
    cbn [Float.f_neg Float.f_mant Float.f_exp fst snd].
    fold n' d'.
    split; [exact Hb|]. split; [reflexivity|].
    split; [apply round_half_even_nonneg; assumption|].
    apply round_half_even_near; assumption.
Qed.

Lemma string_app_assoc (a b c : string) : (a ++ b) ++ c = a ++ (b ++ c).
Proof.
  induction a as [|ch a IH]; simpl; [reflexivity|]. rewrite IH. reflexivity.
Qed.

Lemma digit_str k :
  0 <= k < 10 ->
  exists c, Text.str_of_int k = String c "" /\ Text.isdigit c = true.
Proof.
  intro H.
  assert (k = 0 \/ k = 1 \/ k = 2 \/ k = 3 \/ k = 4 \/ k = 5 \/ k = 6
          \/ k = 7 \/ k = 8 \/ k = 9) as C by lia.
  repeat (destruct C as [->|C]; [eexists; split; reflexivity|]).
  subst. eexists; split; reflexivity.
Qed.

(** [f"{x:.2f}"] always ends in a point and two digits. *)
Lemma format_2f_two_decimals x : two_decimals (Float.format_2f x).
Proof.
  unfold Float.format_2f, Float.two_digits, two_decimals.
  destruct (Float.scaled (100 * Float.f_mant x) 1 (- Float.f_exp x)) as [n d].
  set (h := Float.round_half_even n d).
  pose proof (Z.mod_pos_bound h 100 ltac:(lia)) as B.
  destruct (digit_str (h mod 100 / 10)) as (c1 & E1 & D1).
  { split; [apply Z.div_pos; lia | apply Z.div_lt_upper_bound; lia]. }
  destruct (digit_str (h mod 100 mod 10)) as (c2 & E2 & D2).
  { apply Z.mod_pos_bound. lia. }
  rewrite E1, E2.
  exists ((if Float.f_neg x then "-" else "") ++ Text.str_of_int (h / 100)), c1, c2.
  split; [|split; assumption].
  rewrite string_app_assoc. reflexivity.
Qed.

Lemma filter_nil_iff {A} (p : A -> bool) l :
  filter p l = [] <-> forall x, In x l -> p x = false.
Proof.
  induction l as [|y l IH]; simpl.
  - split; [intros _ x []|reflexivity].
  - destruct (p y) eqn:E; split.
    + discriminate.
    + intro H. specialize (H y (or_introl eq_refl)). congruence.
    + intros H x [<-|Hx]; [exact E|]. apply IH; assumption.
    + intro H. apply IH. intros x Hx. apply H. right. exact Hx.
Qed.

Lemma filter_cons_iff {A} (p : A -> bool) l :
  filter p l <> [] <-> exists x, In x l /\ p x = true.
Proof.
  split.
  - intro H. destruct (filter p l) as [|x l'] eqn:E; [contradiction|].
    exists x. apply filter_In. rewrite E. left. reflexivity.
  - intros (x & Hx & Hp) E.
    rewrite filter_nil_iff in E. rewrite (E x Hx) in Hp. discriminate.
Qed.

Lemma slow_nonempty qs :
  (exists q, In q qs /\ is_slow q = true) -> qs <> [] /\ filter is_slow qs <> [].
Proof.
  intro H. split; [|apply filter_cons_iff; exact H].
  destruct H as (q & Hq & _). intros ->. destruct Hq.
Qed.

(** C2: when the summary reports an average, that is, when some record is
    slow, the number it formats is the sum of all extracted durations
    divided, as a float, by the number of all records, and the text has
    two decimals. *)
Theorem average_over_all_records :
  forall (qs : list query_info) (w : world) (avg : Float.float),
  (exists q, In q qs /\ is_slow q = true) ->
  Float.true_div (sum_durations qs) (len qs) = Return avg ->
  print_summary qs w
  = (Return tt,
     set_stdout (stdout w ++ summary_head qs ++ table_lines qs
                   ++ [slow_line qs;
                       ("Average duration: " ++ Float.format_2f avg ++ "ms")%string])%list
                w)
  /\ two_decimals (Float.format_2f avg)
  /\ 2 * Z.abs (fst (Float.scaled (Z.abs (sum_durations qs)) (len qs)
                                  (Float.f_exp avg))
                - Float.f_mant avg
                  * snd (Float.scaled (Z.abs (sum_durations qs)) (len qs)
                                      (Float.f_exp avg)))
     <= snd (Float.scaled (Z.abs (sum_durations qs)) (len qs) (Float.f_exp avg)).
Proof.
  intros qs w avg Hslow Hdiv.
  destruct (slow_nonempty qs Hslow) as [Hne Hs].
  split; [|split].
  - rewrite (print_summary_runs qs w Hne).
    destruct (filter is_slow qs); [contradiction|].
    rewrite Hdiv. reflexivity.
  - apply format_2f_two_decimals.
  - destruct (true_div_near _ _ _ Hdiv) as (_ & _ & _ & H).
    replace (Z.abs (len qs)) with (len qs) in H by (unfold len; lia).
    exact H.
Qed.

Lemma average_over_all_records_witness :
  stdout (snd (print_summary half_known demo_world))
  = [ nl ++ banner; "SUMMARY"; banner;
      nl ++ "Total COLLSCAN queries found: 2";
      nl ++ "COLLSCAN queries by collection:";
      "  shop.a: 2";
      nl ++ "Slow COLLSCAN queries (>100ms): 1";
      "Average duration: 75.00ms" ].
Proof.
  assert (S : exists q, In q half_known /\ is_slow q = true).
  { exists (parse_collscan_line ("COLLSCAN ns: shop.a 150ms" ++ nl) 1).
    split; [left|]; vm_compute; reflexivity. }
  assert (E : Float.true_div (sum_durations half_known) (len half_known)
              = Return (Float.Float false 5277655813324800 (-46)))
    by (vm_compute; reflexivity).
  rewrite (proj1 (average_over_all_records half_known demo_world _ S E)).
  vm_compute. reflexivity.
Defined.

(** ** The sections of the summary *)

(** C9, as stated, fails: a log whose only marker line has no namespace and
    no duration yields one record, and the summary of that record is its
    head alone, without table, slow-query count or average. *)
Lemma summary_bare_counterexample :
  fst (parse_mongo_log "mongod.log" bare_world) = Return [bare_record]
  /\ stdout (snd (print_summary [bare_record]
                     (snd (parse_mongo_log "mongod.log" bare_world))))
     = [ banner; "Analyzing MongoDB Log: mongod.log"; banner;
         nl ++ banner; "SUMMARY"; banner;
         nl ++ "Total COLLSCAN queries found: 1" ]
  /\ ~ summary_complete
        (stdout (snd (print_summary [bare_record]
                        (snd (parse_mongo_log "mongod.log" bare_world))))).
Proof.
  split; [vm_compute; reflexivity|].
  assert (E : stdout (snd (print_summary [bare_record]
                             (snd (parse_mongo_log "mongod.log" bare_world))))
              = [ banner; "Analyzing MongoDB Log: mongod.log"; banner;
                  nl ++ banner; "SUMMARY"; banner;
                  nl ++ "Total COLLSCAN queries found: 1" ])
    by (vm_compute; reflexivity).
  split; [exact E|].
  rewrite E. intros [H _]. vm_compute in H.
  repeat (destruct H as [H|H]; [discriminate H|]). exact H.
Qed.

(** C9, amended: for at least one record the summary prints its head with
    the total; it prints the table exactly when some record has a
    namespace; without a slow record it prints nothing more, and with one
    it prints the slow-query count and then the average, when the quotient
    is a float. *)
Theorem summary_sections : forall (qs : list query_info) (w : world),
  qs <> [] ->
  (exists tail,
      stdout (snd (print_summary qs w))
      = (stdout w ++ summary_head qs ++ table_lines qs ++ tail)%list)
  /\ ((exists rows, table_lines qs = table_title :: rows)
      <-> exists q, In q qs /\ has_namespace q = true)
  /\ ((forall q, In q qs -> is_slow q = false) ->
      print_summary qs w
      = (Return tt,
         set_stdout (stdout w ++ summary_head qs ++ table_lines qs)%list w))
  /\ ((exists q, In q qs /\ is_slow q = true) ->
      forall avg,
        Float.true_div (sum_durations qs) (len qs) = Return avg ->
        print_summary qs w
        = (Return tt,
           set_stdout (stdout w ++ summary_head qs ++ table_lines qs
                         ++ [slow_line qs; average_line avg])%list w)).
Proof.
  intros qs w Hne.
  pose proof (print_summary_runs qs w Hne) as Hrun.
  split; [|split; [|split]].
  - rewrite Hrun. summary_tail qs.
  - rewrite <- filter_cons_iff.
    pose proof (table_lines_nil qs) as N. split.
    + intros (rows & E) F. apply N in F. congruence.
    + intro F. unfold table_lines in *.
      destruct (summary_table qs) as [|r rows].
      * exfalso. apply F. apply N. reflexivity.
      * eexists. reflexivity.
  - intro H. apply filter_nil_iff in H. rewrite Hrun, H. reflexivity.
  - intros H avg Hdiv. apply filter_cons_iff in H. rewrite Hrun, Hdiv.
    destruct (filter is_slow qs); [contradiction|reflexivity].
Qed.

Lemma summary_sections_witness :
  print_summary tie_records demo_world
  = (Return tt,
     set_stdout [ nl ++ banner; "SUMMARY"; banner;
                  nl ++ "Total COLLSCAN queries found: 6";
                  nl ++ "COLLSCAN queries by collection:";
                  "  shop.b: 2"; "  shop.a: 2"; "  shop.c: 1";
                  nl ++ "Slow COLLSCAN queries (>100ms): 2";
                  "Average duration: 50.67ms" ] demo_world).
Proof.
  assert (Hne : tie_records <> []) by (vm_compute; discriminate).
  assert (S : exists q, In q tie_records /\ is_slow q = true).
  { exists (parse_collscan_line ("COLLSCAN ns: shop.b 150ms" ++ nl) 1).
    split; [left|]; vm_compute; reflexivity. }
  destruct (Float.true_div (sum_durations tie_records) (len tie_records))
    as [avg|e] eqn:E; [|vm_compute in E; discriminate E].
  rewrite (proj2 (proj2 (proj2 (summary_sections tie_records demo_world Hne)))
             S avg E).
  vm_compute in E. inversion E; subst avg. vm_compute. reflexivity.
Defined.

(** C10: the counts of the table add up to the number of records that have
    a namespace; a record without one changes nothing in the table, yet it
    is counted in the total the summary prints; and the table is left out
    exactly when no record has a namespace. *)
Theorem missing_namespace_ungrouped : forall qs : list query_info,
  sum_counts (summary_table qs) = len (filter has_namespace qs)
  /\ (forall pre q post,
         qs = (pre ++ q :: post)%list -> collection q = None ->
         summary_table qs = summary_table (pre ++ post))
  /\ (table_lines qs = [] <-> filter has_namespace qs = [])
  /\ (forall w, qs <> [] ->
      exists tail,
        stdout (snd (print_summary qs w))
        = (stdout w
             ++ [ (nl ++ banner)%string; "SUMMARY"%string; banner;
                  (nl ++ "Total COLLSCAN queries found: "
                      ++ Text.str_of_int (len qs))%string ]
             ++ table_lines qs ++ tail)%list).
Proof.
  intro qs. split; [|split; [|split]].
  - rewrite (sum_counts_perm _ _ (summary_table_perm qs)).
    rewrite sum_counts_counts. unfold len. rewrite namespaces_length.
    reflexivity.
  - intros pre q post -> Hq. unfold summary_table. rewrite !tally_spec.
    cbn [by_collection]. do 2 f_equal.
    change (q :: post) with ([q] ++ post)%list.
    rewrite !namespaces_app. unfold namespaces at 2. cbn [flat_map].
    rewrite Hq. reflexivity.
  - apply table_lines_nil.
  - intros w Hne. rewrite (print_summary_runs qs w Hne).
    fold (summary_head qs).
    summary_tail qs.
Qed.

Lemma missing_namespace_ungrouped_witness :
  sum_counts (summary_table tie_records) = 5
  /\ len tie_records = 6
  /\ summary_table tie_records
     = summary_table (firstn 2 tie_records ++ skipn 3 tie_records).
Proof.
  destruct (missing_namespace_ungrouped tie_records) as (Hsum & Hskip & _).
  split; [rewrite Hsum; vm_compute; reflexivity|].
  split; [vm_compute; reflexivity|].
  apply (Hskip (firstn 2 tie_records)
               (parse_collscan_line ("COLLSCAN no namespace here" ++ nl) 3)
               (skipn 3 tie_records));
    vm_compute; reflexivity.
Defined.

(** ** The export *)

Lemma get_put_file path c : forall fs, get_file path (put_file path c fs) = Some c.
Proof.
  induction fs as [|[p c'] fs IH]; simpl.
  - rewrite String.eqb_refl. reflexivity.
  - destruct (String.eqb p path) eqn:E; simpl; rewrite E; auto.
Qed.

Lemma put_put_file path c1 c2 : forall fs,
  put_file path c2 (put_file path c1 fs) = put_file path c2 fs.
Proof.
  induction fs as [|[p c'] fs IH]; simpl.
  - rewrite String.eqb_refl. reflexivity.
  - destruct (String.eqb p path) eqn:E; simpl; rewrite E; [reflexivity|].
    rewrite IH. reflexivity.
Qed.

Lemma put_get_file path c : forall fs,
  get_file path fs = Some c -> put_file path c fs = fs.
Proof.
  induction fs as [|[p c'] fs IH]; simpl; intro H; [discriminate|].
  destruct (String.eqb p path) eqn:E.
  - inversion H; subst. reflexivity.
  - rewrite IH by exact H. reflexivity.
Qed.

Lemma string_app_nil_r (a : string) : a ++ "" = a.
Proof. induction a as [|c a IH]; simpl; [reflexivity|]. rewrite IH. reflexivity. Qed.

Lemma set_out_same w q fs :
  fs_quota w = q -> fs_out w = fs -> set_out q fs w = w.
Proof. intros <- <-. destruct w. reflexivity. Qed.

(** Writing a list of strings to an open file: all of them when the quota
    allows, otherwise as many as it allows and then the error. *)
Lemma write_all_runs path : forall chunks w c,
  get_file path (fs_out w) = Some c ->
  for_each chunks (write path) w
  = match fs_quota w with
    | None =>
        (Return tt,
         set_out None (put_file path (c ++ join chunks) (fs_out w)) w)
    | Some n =>
        if (List.length chunks <=? n)%nat
        then (Return tt,
              set_out (Some (n - List.length chunks)%nat)
                      (put_file path (c ++ join chunks) (fs_out w)) w)
        else (Raise (fs_write_error w),
              set_out (Some O)
                      (put_file path (c ++ join (firstn n chunks)) (fs_out w)) w)
    end.
Proof.
  induction chunks as [|x chunks IH]; intros w c Hc.
  - cbn [for_each join fold_right List.length]. unfold ret.
    rewrite string_app_nil_r, (put_get_file _ _ _ Hc).
    destruct (fs_quota w) as [n|] eqn:Q.
    + cbn [Nat.leb]. rewrite Nat.sub_0_r, set_out_same; auto.
    + rewrite set_out_same; auto.
  - cbn [for_each]. unfold bind. unfold write at 1. rewrite Hc.
    destruct (fs_quota w) as [[|n]|] eqn:Q.
    + cbn [List.length Nat.leb firstn join fold_right].
      rewrite string_app_nil_r, (put_get_file _ _ _ Hc), set_out_same; auto.
    + rewrite (IH _ (c ++ x)) by (cbn [fs_out set_out]; apply get_put_file).
      cbn [fs_quota fs_out set_out fs_write_error List.length Nat.leb firstn
           join fold_right Nat.sub].
      rewrite !put_put_file, !string_app_assoc.
      destruct (List.length chunks <=? n)%nat; reflexivity.
    + rewrite (IH _ (c ++ x)) by (cbn [fs_out set_out]; apply get_put_file).
      cbn [fs_quota fs_out set_out join fold_right].
      rewrite !put_put_file, !string_app_assoc. reflexivity.
Qed.

Lemma bind_assoc {A B C} (c : M A) (k : A -> M B) (h : B -> M C) w :
  bind (bind c k) h w = bind c (fun a => bind (k a) h) w.
Proof.
  unfold bind. destruct (c w) as [[a|e] w']; reflexivity.
Qed.

Lemma for_each_app {A} (f : A -> M unit) (l1 l2 : list A) : forall w,
  for_each (l1 ++ l2) f w = bind (for_each l1 f) (fun _ => for_each l2 f) w.
Proof.
  induction l1 as [|x l1 IH]; intro w.
  - reflexivity.
  - cbn [app for_each]. unfold bind.
    destruct (f x w) as [[[]|e] w']; [|reflexivity].
    rewrite IH. reflexivity.
Qed.

Lemma for_each_flat_map {A B} (g : A -> list B) (f : B -> M unit) :
  forall (l : list A) w,
    for_each l (fun a => for_each (g a) f) w = for_each (flat_map g l) f w.
Proof.
  induction l as [|a l IH]; intro w; [reflexivity|].
  cbn [for_each flat_map]. rewrite for_each_app. unfold bind.
  destruct (for_each (g a) f w) as [[[]|e] w']; [apply IH|reflexivity].
Qed.

Lemma export_body_chunks qs path (k : M unit) w :
  (write path ("MongoDB COLLSCAN Queries Report" ++ nl) ;;
   write path (banner ++ nl ++ nl) ;;
   for_each (enumerate qs 1)
     (fun '(i, q) => for_each (export_block i q) (write path)) ;;
   k) w
  = bind (for_each (export_chunks qs) (write path)) (fun _ => k) w.
Proof.
  unfold export_chunks. cbn [for_each]. unfold bind.
  destruct (write path ("MongoDB COLLSCAN Queries Report" ++ nl) w)
    as [[[]|e] w1]; [|reflexivity].
  destruct (write path (banner ++ nl ++ nl) w1) as [[[]|e] w2]; [|reflexivity].
  rewrite (for_each_ext _ (fun iq => for_each (export_block (fst iq) (snd iq))
                                              (write path)))
    by (intros [i q]; reflexivity).
  rewrite (for_each_flat_map (fun iq => export_block (fst iq) (snd iq))).
  reflexivity.
Qed.

(** What [export_to_file] does in every world. *)
Lemma export_runs qs path w :
  export_to_file qs path w
  = match fs_open_w w path with
    | Some e =>
        (Return tt, set_stdout (stdout w ++ [export_error_line e])%list w)
    | None =>
        match fs_quota w with
        | None =>
            (Return tt,
             set_stdout (stdout w ++ [export_ok_line path])%list
               (set_out None
                  (put_file path (join (export_chunks qs)) (fs_out w)) w))
        | Some n =>
            if (List.length (export_chunks qs) <=? n)%nat
            then (Return tt,
                  set_stdout (stdout w ++ [export_ok_line path])%list
                    (set_out (Some (n - List.length (export_chunks qs))%nat)
                       (put_file path (join (export_chunks qs)) (fs_out w)) w))
            else (Return tt,
                  set_stdout (stdout w ++ [export_error_line (fs_write_error w)])%list
                    (set_out (Some O)
                       (put_file path (join (firstn n (export_chunks qs)))
                                 (fs_out w)) w))
        end
    end.
Proof.
  unfold export_to_file, try_except. unfold bind at 1. unfold open_write.
  destruct (fs_open_w w path) as [e|] eqn:O.
  - reflexivity.
  - rewrite export_body_chunks. unfold bind.
    rewrite (write_all_runs path _ _ "")
      by (cbn [fs_out set_out]; apply get_put_file).
    cbn [fs_quota fs_out set_out fs_write_error].
    unfold print, export_ok_line, export_error_line.
    destruct (fs_quota w) as [n|].
    + destruct (List.length (export_chunks qs) <=? n)%nat;
        cbn [fs_quota fs_out set_out fs_write_error stdout set_stdout];
        rewrite put_put_file; reflexivity.
    + cbn [fs_quota fs_out set_out fs_write_error stdout set_stdout].
      rewrite put_put_file. reflexivity.
Qed.



(** A device that fills up during the export: the error is printed and
    the file holds what the five accepted writes put there. *)
Example export_disk_full :
  export_to_file tie_records "collscan_report.txt" full_world
  = (Return tt,
     World (fs_open_r full_world) (fs_open_w full_world) (Some O)
           (fs_write_error full_world)
           [("collscan_report.txt",
             "MongoDB COLLSCAN Queries Report" ++ nl ++ banner ++ nl ++ nl
             ++ "Query #1 (Line 1)" ++ nl
             ++ "  Timestamp:     None" ++ nl
             ++ "  Collection:    shop.b" ++ nl)]
           ["✗ Error exporting to file: [Errno 28] No space left on device"]).
Proof.
  vm_compute. reflexivity.
Qed.

(** The whole program still ends with its closing lines when the export
    fails. *)
Example main_completes_when_export_fails :
  fst (main stuck_world) = Return tt
  /\ skipn (List.length (stdout (snd (main stuck_world))) - 4)
           (stdout (snd (main stuck_world)))
     = [ "✗ Error exporting to file: [Errno 2] No such file or directory: 'collscan_report.txt'";
         nl ++ banner; "Analysis Complete!"; banner ].
Proof.
  vm_compute. split; reflexivity.
Qed.

Lemma enumerate_snd {A} (l : list A) : forall k, map snd (enumerate l k) = l.
Proof.
  induction l as [|x l IH]; intro k; simpl; [reflexivity|].
  rewrite IH. reflexivity.
Qed.

Lemma enumerate_nth_error {A} (l : list A) : forall k i x,
  nth_error l i = Some x ->
  nth_error (enumerate l k) i = Some (k + Z.of_nat i, x).
Proof.
  induction l as [|y l IH]; intros k i x H; destruct i as [|i]; simpl in *;
    try discriminate.
  - inversion H; subst. do 2 f_equal. lia.
  - rewrite (IH (k + 1) i x H). do 2 f_equal. lia.
Qed.

(** C6, as stated, fails: the record of a bare marker line has no
    timestamp, and its block in the exported file shows the text None
    there, not an empty field. *)
Lemma export_none_counterexample :
  timestamp bare_record = None
  /\ get_file "collscan_report.txt"
       (fs_out (snd (export_to_file [bare_record] "collscan_report.txt"
                                    demo_world)))
     = Some ("MongoDB COLLSCAN Queries Report" ++ nl
             ++ banner ++ nl ++ nl
             ++ "Query #1 (Line 1)" ++ nl
             ++ "  Timestamp:     None" ++ nl
             ++ "  Collection:    None" ++ nl
             ++ "  Duration:      Nonems" ++ nl
             ++ "  Docs Examined: None" ++ nl
             ++ "  Query:         None" ++ nl
             ++ "  Raw Line:      COLLSCAN" ++ nl
             ++ nl ++ rule ++ nl ++ nl)
  /\ ~ In ("  Timestamp:     " ++ nl) (export_chunks [bare_record]).
Proof.
  split; [reflexivity|]. split; [vm_compute; reflexivity|].
  intro H. vm_compute in H.
  repeat (destruct H as [H|H]; [discriminate H|]). exact H.
Qed.

(** C6, amended: when the file can be written, the export writes the two
    lines of the title and then one block for every record, in order and
    numbered from 1, whatever their number; in a block every field has its
    line, and a field that was not extracted shows as the text None. *)
Theorem export_all_records :
  forall (qs : list query_info) (path : string) (w : world),
  fs_open_w w path = None ->
  (forall n, fs_quota w = Some n -> (List.length (export_chunks qs) <= n)%nat) ->
  exists w',
    export_to_file qs path w = (Return tt, w')
    /\ get_file path (fs_out w')
       = Some (join (("MongoDB COLLSCAN Queries Report" ++ nl)%string
                     :: (banner ++ nl ++ nl)%string
                     :: flat_map (fun iq => export_block (fst iq) (snd iq))
                                 (enumerate qs 1)))
    /\ map snd (enumerate qs 1) = qs
    /\ (forall i q, nth_error qs i = Some q ->
        nth_error (enumerate qs 1) i = Some (1 + Z.of_nat i, q))
    /\ (forall i q,
        export_block i q
        = [ ("Query #" ++ Text.str_of_int i ++ " (Line "
               ++ Text.str_of_int (line_number q) ++ ")" ++ nl)%string;
            ("  Timestamp:     "
               ++ match timestamp q with Some t => t | None => "None" end
               ++ nl)%string;
            ("  Collection:    "
               ++ match collection q with Some c => c | None => "None" end
               ++ nl)%string;
            ("  Duration:      "
               ++ match duration_ms q with
                  | Some d => Text.str_of_int d
                  | None => "None"
                  end ++ "ms" ++ nl)%string;
            ("  Docs Examined: "
               ++ match docs_examined q with
                  | Some d => Text.str_of_int d
                  | None => "None"
                  end ++ nl)%string;
            ("  Query:         "
               ++ match query q with Some t => t | None => "None" end
               ++ nl)%string;
            ("  Raw Line:      " ++ raw_line q ++ nl)%string;
            (nl ++ rule ++ nl ++ nl)%string ]).
Proof.
  intros qs path w Hopen Hquota. rewrite export_runs, Hopen.
  destruct (fs_quota w) as [n|].
  - specialize (Hquota n eq_refl). apply Nat.leb_le in Hquota. rewrite Hquota.
    eexists. split; [reflexivity|].
    cbn [fs_out set_stdout set_out]. rewrite get_put_file.
    split; [reflexivity|]. split; [apply enumerate_snd|].
    split; [intros; apply enumerate_nth_error; assumption|].
    intros i q. reflexivity.
  - eexists. split; [reflexivity|].
    cbn [fs_out set_stdout set_out]. rewrite get_put_file.
    split; [reflexivity|]. split; [apply enumerate_snd|].
    split; [intros; apply enumerate_nth_error; assumption|].
    intros i q. reflexivity.
Qed.

Lemma export_all_records_witness :
  exists w',
    export_to_file (scan_lines long_log) "collscan_report.txt" demo_world
    = (Return tt, w')
    /\ get_file "collscan_report.txt" (fs_out w')
       = Some (join (export_chunks (scan_lines long_log)))
    /\ List.length (export_chunks (scan_lines long_log)) = (2 + 25 * 8)%nat
    /\ LIMIT < len (scan_lines long_log).
Proof.
  destruct (export_all_records (scan_lines long_log) "collscan_report.txt"
                               demo_world eq_refl)
    as (w' & Hrun & Hfile & _).
  - intros n Hn. discriminate Hn.
  - exists w'. split; [exact Hrun|]. split; [exact Hfile|].
    split; vm_compute; reflexivity.
Defined.

(** * Further properties *)

(** ** The matcher is sound for the declarative reading *)

Lemma string_length_app (a b : string) :
  String.length (a ++ b) = (String.length a + String.length b)%nat.
Proof. induction a as [|c a IH]; simpl; [reflexivity|]. rewrite IH. reflexivity. Qed.

Lemma many_sound {R} k (cont : string -> option R) x :
  forall s lo hi,
    Re.many k lo hi s cont = Some x ->
    exists t s',
      s = t ++ s' /\ all_match k t = true
      /\ (lo <= String.length t)%nat
      /\ (forall h, hi = Some h -> (String.length t <= Nat.max lo h)%nat)
      /\ cont s' = Some x.
Proof.
  induction s as [|c s IH]; intros lo hi H.
  - destruct lo as [|lo]; simpl in H; [|discriminate].
    exists EmptyString, EmptyString. repeat split; simpl; try lia.
    destruct hi as [[|h]|]; exact H.
  - assert (Hstop : cont (String c s) = Some x ->
              exists t s', String c s = t ++ s' /\ all_match k t = true
                /\ (0 <= String.length t)%nat
                /\ (forall h, hi = Some h -> (String.length t <= Nat.max 0 h)%nat)
                /\ cont s' = Some x).
    { intro Hc. exists EmptyString, (String c s). repeat split; simpl; auto; lia. }
    destruct lo as [|lo]; simpl in H.
    + destruct hi as [[|h]|]; [auto| |].
      * destruct (Re.class_matches k c) eqn:Ek; [|auto].
        destruct (Re.many k 0 (option_map Nat.pred (Some (S h))) s cont) eqn:Hm;
          [|auto].
        inversion H; subst. apply IH in Hm.
        destruct Hm as (t & s' & -> & Ht & _ & Hb & Hc).
        exists (String c t), s'. simpl. rewrite Ek, Ht.
        repeat split; auto; try lia.
        intros h' Hh'. inversion Hh'; subst.
        specialize (Hb h eq_refl). lia.
      * destruct (Re.class_matches k c) eqn:Ek; [|auto].
        destruct (Re.many k 0 (option_map Nat.pred None) s cont) eqn:Hm; [|auto].
        inversion H; subst. apply IH in Hm.
        destruct Hm as (t & s' & -> & Ht & _ & _ & Hc).
        exists (String c t), s'. simpl. rewrite Ek, Ht.
        repeat split; auto; try lia. intros h' Hh'. discriminate.
    + destruct (Re.class_matches k c) eqn:Ek; [|discriminate].
      apply IH in H. destruct H as (t & s' & -> & Ht & Hl & Hb & Hc).
      exists (String c t), s'. simpl. rewrite Ek, Ht.
      repeat split; auto; try lia.
      intros h Hh. subst hi. destruct h as [|h].
      * specialize (Hb O eq_refl). lia.
      * specialize (Hb h eq_refl). lia.
Qed.

Lemma seq_sound {R} (cont : string -> option R) x :
  forall r s,
    Re.seq r s cont = Some x ->
    exists t s', s = t ++ s' /\ regex_matches r t /\ cont s' = Some x.
Proof.
  induction r as [|p r IH]; intros s H; simpl in H.
  - exists EmptyString, s. repeat split; auto.
  - apply many_sound in H.
    destruct H as (t1 & s1 & -> & Ht & Hlo & Hhi & H).
    apply IH in H. destruct H as (t2 & s2 & -> & Hr & Hc).
    exists (t1 ++ t2), s2. split; [symmetry; apply string_app_assoc|].
    split; [|exact Hc].
    simpl. exists t1, t2. split; [reflexivity|]. split; [|exact Hr].
    unfold piece_matches. split; [exact Ht|]. split; [exact Hlo|].
    destruct (Re.p_max p) as [h|]; [apply Hhi; reflexivity|exact I].
Qed.

Lemma take_app t : forall s, Text.take (String.length t) (t ++ s) = t.
Proof.
  induction t as [|c t IH]; intro s; simpl.
  - destruct s; reflexivity.
  - rewrite IH. reflexivity.
Qed.

Lemma between_app t s : Re.between (t ++ s) s = t.
Proof.
  unfold Re.between. rewrite string_length_app.
  replace (String.length t + String.length s - String.length s)%nat
    with (String.length t) by lia.
  apply take_app.
Qed.

Lemma match_here_sound p s m :
  Re.match_here p s = Some m ->
  exists a c rest,
    s = a ++ Re.group1 m ++ c ++ rest
    /\ regex_matches (Re.pre p) a
    /\ regex_matches (Re.grp p) (Re.group1 m)
    /\ regex_matches (Re.post p) c.
Proof.
  unfold Re.match_here. intro H.
  apply seq_sound in H. destruct H as (a & s1 & -> & Ha & H).
  apply seq_sound in H. destruct H as (g & s2 & -> & Hg & H).
  apply seq_sound in H. destruct H as (c & s3 & -> & Hc & H).
  inversion H; subst m; clear H. cbn [Re.group1].
  rewrite between_app. exists a, c, s3. auto.
Qed.

(** What [search] finds lies in the text, between a run of the part before
    the group and a run of the part after it, and is a run of the group. *)
Lemma search_sound p : forall s m,
  Re.search p s = Some m ->
  exists skipped a c rest,
    s = skipped ++ a ++ Re.group1 m ++ c ++ rest
    /\ regex_matches (Re.pre p) a
    /\ regex_matches (Re.grp p) (Re.group1 m)
    /\ regex_matches (Re.post p) c.
Proof.
  induction s as [|ch s IH]; intros m H; simpl in H.
  - destruct (Re.match_here p EmptyString) eqn:E; [|discriminate].
    inversion H; subst. apply match_here_sound in E.
    destruct E as (a & c & rest & E & Hm). exists EmptyString, a, c, rest. auto.
  - destruct (Re.match_here p (String ch s)) eqn:E.
    + inversion H; subst. apply match_here_sound in E.
      destruct E as (a & c & rest & E & Hm). exists EmptyString, a, c, rest. auto.
    + apply IH in H. destruct H as (sk & a & c & rest & -> & Hm).
      exists (String ch sk), a, c, rest. auto.
Qed.

(** ** The shape of what the extractor fills in *)

Lemma parse_fields_spec line n :
  let q := parse_collscan_line line n in
  timestamp q = option_map Re.group1 (Re.search Patterns.timestamp_re line)
  /\ collection q
     = match Re.search Patterns.ns_re line with
       | Some m => Some (Re.group1 m)
       | None => option_map Re.group1 (Re.search Patterns.collection_re line)
       end
  /\ query q = option_map Re.group1 (Re.search Patterns.query_re line)
  /\ duration_ms q
     = option_map (fun m => Text.int_of_digits (Re.group1 m))
                  (Re.search Patterns.duration_re line)
  /\ docs_examined q
     = option_map (fun m => Text.int_of_digits (Re.group1 m))
                  (Re.search Patterns.docs_re line)
  /\ keys_examined q
     = option_map (fun m => Text.int_of_digits (Re.group1 m))
                  (Re.search Patterns.keys_re line)
  /\ plan_summary q = option_map Re.group1 (Re.search Patterns.plan_re line).
Proof.
  intro q. subst q.
  pose proof (ns_group_truthy line) as Hns.
  unfold parse_collscan_line.
  destruct (Re.search Patterns.timestamp_re line) as [mt|];
    destruct (Re.search Patterns.ns_re line) as [mn|];
    cbn [collection set_collection set_timestamp];
    try rewrite (Hns mn eq_refl);
    cbn [negb truthy_str];
    destruct (Re.search Patterns.collection_re line);
    destruct (Re.search Patterns.query_re line);
    destruct (Re.search Patterns.duration_re line);
    destruct (Re.search Patterns.docs_re line);
    destruct (Re.search Patterns.keys_re line);
    destruct (Re.search Patterns.plan_re line);
    repeat split.
Qed.

Lemma search_substring p s m :
  Re.search p s = Some m -> exists a b, s = a ++ Re.group1 m ++ b.
Proof.
  intro H. apply search_sound in H.
  destruct H as (sk & a & c & rest & -> & _).
  exists (sk ++ a), (c ++ rest). rewrite string_app_assoc. reflexivity.
Qed.

(** A field read through [option_map] comes from a match. *)
Lemma option_map_some {A B} (f : A -> B) (o : option A) (y : B) :
  option_map f o = Some y -> exists x, o = Some x /\ f x = y.
Proof. destruct o as [x|]; simpl; intro H; inversion H; eauto. Qed.

(** X1: whatever text the extractor puts in the timestamp, the namespace,
    the query or the plan summary is a piece of the line it was given. *)
Theorem extracted_text_in_line : forall (line : string) (n : Z) (t : string),
  let q := parse_collscan_line line n in
  timestamp q = Some t \/ collection q = Some t
  \/ query q = Some t \/ plan_summary q = Some t ->
  exists a b, line = a ++ t ++ b.
Proof.
  intros line n t q H. subst q.
  destruct (parse_fields_spec line n) as (Ht & Hc & Hq & _ & _ & _ & Hp).
  destruct H as [H|[H|[H|H]]].
  - rewrite Ht in H. apply option_map_some in H. destruct H as (m & Hm & <-).
    eapply search_substring; eauto.
  - rewrite Hc in H.
    destruct (Re.search Patterns.ns_re line) as [m|] eqn:Hm.
    + inversion H; subst. eapply search_substring; eauto.
    + apply option_map_some in H. destruct H as (m & Hm' & <-).
      eapply search_substring; eauto.
  - rewrite Hq in H. apply option_map_some in H. destruct H as (m & Hm & <-).
    eapply search_substring; eauto.
  - rewrite Hp in H. apply option_map_some in H. destruct H as (m & Hm & <-).
    eapply search_substring; eauto.
Qed.

Lemma extracted_text_in_line_witness :
  exists a b, sample_line = a ++ "mydb.orders" ++ b.
Proof.
  apply (extracted_text_in_line sample_line 1 "mydb.orders").
  right. left. vm_compute. reflexivity.
Defined.

Lemma digit_value c :
  Re.class_matches Re.digit c = true -> 0 <= Z.of_nat (nat_of_ascii c) - 48 <= 9.
Proof.
  unfold Re.digit, Re.class_matches, Re.item_matches, Text.isdigit.
  intro H. apply andb_true_iff in H. destruct H as [H1 H2].
  apply Nat.leb_le in H1, H2. lia.
Qed.

Lemma fold_digits_nonneg : forall t acc,
  all_match Re.digit t = true -> 0 <= acc ->
  0 <= fold_left (fun a c => 10 * a + (Z.of_nat (nat_of_ascii c) - 48))
                 (list_ascii_of_string t) acc.
Proof.
  induction t as [|c t IH]; intros acc Ht Ha; [exact Ha|].
  cbn [all_match] in Ht. apply andb_true_iff in Ht. destruct Ht as [Hc Ht].
  cbn [list_ascii_of_string fold_left]. apply IH; [exact Ht|].
  pose proof (digit_value c Hc). lia.
Qed.

Lemma int_of_digits_nonneg t :
  all_match Re.digit t = true -> 0 <= Text.int_of_digits t.
Proof.
  intro H. unfold Text.int_of_digits. apply fold_digits_nonneg; [exact H|lia].
Qed.

(** A pattern of one piece matches runs of that piece. *)
Lemma regex_one_piece p t :
  regex_matches [p] t -> piece_matches p t.
Proof.
  simpl. intros (t1 & t2 & -> & H & ->). rewrite string_app_nil_r. exact H.
Qed.

Lemma number_group_nonneg p line m :
  Re.grp p = [Re.plus Re.digit] ->
  Re.search p line = Some m ->
  0 <= Text.int_of_digits (Re.group1 m).
Proof.
  intros Hg H. apply search_sound in H.
  destruct H as (_ & _ & _ & _ & _ & _ & Hm & _).
  rewrite Hg in Hm. apply regex_one_piece in Hm. destruct Hm as [Hm _].
  apply int_of_digits_nonneg. exact Hm.
Qed.

(** X2: a duration, a number of documents examined or a number of keys
    examined that the extractor fills in is never negative. *)
Theorem extracted_numbers_nonneg : forall (line : string) (n : Z) (v : Z),
  let q := parse_collscan_line line n in
  duration_ms q = Some v \/ docs_examined q = Some v \/ keys_examined q = Some v ->
  0 <= v.
Proof.
  intros line n v q H. subst q.
  destruct (parse_fields_spec line n) as (_ & _ & _ & Hd & Hx & Hk & _).
  destruct H as [H|[H|H]];
    [rewrite Hd in H|rewrite Hx in H|rewrite Hk in H];
    apply option_map_some in H; destruct H as (m & Hm & <-);
    eapply number_group_nonneg; eauto; reflexivity.
Qed.

Lemma extracted_numbers_nonneg_witness : 0 <= 5000.
Proof.
  apply (extracted_numbers_nonneg sample_line 1 5000).
  right. left. vm_compute. reflexivity.
Defined.

Lemma no_space_app a b :
  no_space (a ++ b) = no_space a && no_space b.
Proof.
  induction a as [|c a IH]; simpl; [reflexivity|].
  rewrite IH. apply andb_assoc.
Qed.

Lemma all_match_no_space k :
  (forall c, Re.class_matches k c = true -> Text.isspace c = false) ->
  forall t, all_match k t = true -> no_space t = true.
Proof.
  intros Hk. induction t as [|c t IH]; simpl; intro H; [reflexivity|].
  apply andb_true_iff in H. destruct H as [Hc Ht].
  rewrite (Hk c Hc), (IH Ht). reflexivity.
Qed.

Lemma class_not_space_1 c :
  Re.class_matches (Re.NoneOf [Re.ISpace]) c = true -> Text.isspace c = false.
Proof.
  simpl. destruct (Text.isspace c); simpl; [discriminate|reflexivity].
Qed.

Lemma class_not_space_2 c :
  Re.class_matches (Re.NoneOf [Re.IChar Text.dquote; Re.ISpace]) c = true ->
  Text.isspace c = false.
Proof.
  cbn [Re.class_matches existsb Re.item_matches].
  destruct (Text.isspace c); [|reflexivity].
  rewrite orb_true_r. discriminate.
Qed.

Lemma class_char d c :
  Re.class_matches (Re.One (Re.IChar d)) c = true -> c = d.
Proof.
  simpl. intro H. apply Ascii.eqb_eq in H. congruence.
Qed.

(** A run of the piece [chr d] is the one character [d]. *)
Lemma piece_chr d t : piece_matches (Re.chr d) t -> t = String d EmptyString.
Proof.
  intros (Hm & Hlo & Hhi). simpl in Hlo, Hhi.
  destruct t as [|c [|c' t]]; simpl in *; try lia.
  apply andb_true_iff in Hm. destruct Hm as [Hc _].
  apply class_char in Hc. subst. reflexivity.
Qed.

Lemma ns_group_no_space line m :
  Re.search Patterns.ns_re line = Some m -> no_space (Re.group1 m) = true.
Proof.
  intro H. apply search_sound in H.
  destruct H as (_ & _ & _ & _ & _ & _ & Hm & _).
  cbn [Re.grp Patterns.ns_re regex_matches] in Hm.
  destruct Hm as (t1 & r1 & -> & (H1 & _) & t2 & r2 & -> & H2 & t3 & r3 & ->
                  & (H3 & _) & ->).
  apply piece_chr in H2. subst t2.
  rewrite !no_space_app.
  rewrite (all_match_no_space _ class_not_space_1 _ H1).
  rewrite (all_match_no_space _ class_not_space_1 _ H3). reflexivity.
Qed.

Lemma token_group_no_space p line m k :
  Re.grp p = [Re.plus k] ->
  (forall c, Re.class_matches k c = true -> Text.isspace c = false) ->
  Re.search p line = Some m -> no_space (Re.group1 m) = true.
Proof.
  intros Hg Hk H. apply search_sound in H.
  destruct H as (_ & _ & _ & _ & _ & _ & Hm & _).
  rewrite Hg in Hm. apply regex_one_piece in Hm. destruct Hm as [Hm _].
  eapply all_match_no_space; eauto.
Qed.

Lemma group_nonempty p line m :
  (1 <= min_len (Re.grp p))%nat ->
  Re.search p line = Some m -> Re.group1 m <> EmptyString.
Proof.
  intros Hl H. apply search_group in H. intro E. rewrite E in H. simpl in H. lia.
Qed.

(** X3: a namespace or a plan summary that the extractor fills in is never
    empty and holds no whitespace; so a record made by the extractor has a
    namespace for the summary exactly when its collection is filled. *)
Theorem extracted_tokens_solid : forall (line : string) (n : Z),
  let q := parse_collscan_line line n in
  (forall c, collection q = Some c -> c <> EmptyString /\ no_space c = true)
  /\ (forall s, plan_summary q = Some s -> s <> EmptyString /\ no_space s = true)
  /\ has_namespace q = is_some (collection q).
Proof.
  intros line n q. subst q.
  destruct (parse_fields_spec line n) as (_ & Hc & _ & _ & _ & _ & Hp).
  assert (C : forall c, collection (parse_collscan_line line n) = Some c ->
                        c <> EmptyString /\ no_space c = true).
  { intros c H. rewrite Hc in H.
    destruct (Re.search Patterns.ns_re line) as [m|] eqn:Hm.
    - inversion H; subst. split.
      + eapply group_nonempty; [|exact Hm]. simpl. lia.
      + eapply ns_group_no_space; exact Hm.
    - apply option_map_some in H. destruct H as (m & Hm' & <-). split.
      + eapply group_nonempty; [|exact Hm']. simpl. lia.
      + exact (token_group_no_space Patterns.collection_re line m _ eq_refl
                 class_not_space_2 Hm'). }
  split; [exact C|]. split.
  - intros s H. rewrite Hp in H.
    apply option_map_some in H. destruct H as (m & Hm & <-). split.
    + eapply group_nonempty; [|exact Hm]. simpl. lia.
    + exact (token_group_no_space Patterns.plan_re line m _ eq_refl
               class_not_space_1 Hm).
  - unfold has_namespace.
    destruct (collection (parse_collscan_line line n)) as [c|] eqn:E;
      [|reflexivity].
    destruct (C c eq_refl) as [Hne _]. destruct c; [contradiction|reflexivity].
Qed.

Lemma extracted_tokens_solid_witness :
  "mydb.orders" <> EmptyString /\ no_space "mydb.orders" = true.
Proof.
  apply (proj1 (extracted_tokens_solid sample_line 1) "mydb.orders").
  vm_compute. reflexivity.
Defined.

Lemma all_match_lacks d : forall t,
  all_match (Re.NoneOf [Re.IChar d]) t = true -> lacks d t = true.
Proof.
  induction t as [|c t IH]; simpl; intro H; [reflexivity|].
  apply andb_true_iff in H. destruct H as [Hc Ht].
  rewrite orb_false_r in Hc. rewrite Hc, (IH Ht). reflexivity.
Qed.

(** X4: a query that the extractor fills in is an opening brace, a
    non-empty text without closing brace, and a closing brace: it ends at
    the first closing brace after [query:]. *)
Theorem extracted_query_braces : forall (line : string) (n : Z) (t : string),
  query (parse_collscan_line line n) = Some t ->
  exists body,
    t = "{" ++ body ++ "}" /\ body <> EmptyString /\ lacks "}" body = true.
Proof.
  intros line n t H.
  destruct (parse_fields_spec line n) as (_ & _ & Hq & _).
  rewrite Hq in H. apply option_map_some in H. destruct H as (m & Hm & <-).
  apply search_sound in Hm.
  destruct Hm as (_ & _ & _ & _ & _ & _ & Hm & _).
  cbn [Re.grp Patterns.query_re regex_matches] in Hm.
  destruct Hm as (t1 & r1 & -> & H1 & t2 & r2 & -> & (H2 & L2 & _) & t3 & r3 & ->
                  & H3 & ->).
  apply piece_chr in H1, H3. subst t1 t3.
  exists t2. split; [reflexivity|]. split.
  - intro E. rewrite E in L2. simpl in L2. lia.
  - apply all_match_lacks. exact H2.
Qed.

Lemma extracted_query_braces_witness :
  exists body,
    "{a: {b: 1}" = "{" ++ body ++ "}" /\ body <> EmptyString
    /\ lacks "}" body = true.
Proof.
  apply (extracted_query_braces "COLLSCAN query: {a: {b: 1}} 5ms" 1).
  vm_compute. reflexivity.
Defined.

(** ** More on the line scanner *)










(** ** The raw line of a record *)

Lemma prefix_split : forall p s,
  String.prefix p s = true -> exists b, s = p ++ b.
Proof.
  induction p as [|a p IH]; intros s H.
  - exists s. reflexivity.
  - destruct s as [|c s]; simpl in H; [discriminate|].
    destruct (ascii_dec a c) as [->|]; [|discriminate].
    destruct (IH _ H) as (b & ->). exists b. reflexivity.
Qed.

Lemma prefix_app : forall p b, String.prefix p (p ++ b) = true.
Proof.
  induction p as [|a p IH]; intro b; simpl.
  - destruct b; reflexivity.
  - destruct (ascii_dec a a); [apply IH|congruence].
Qed.

Lemma str_in_split sub : forall s,
  Text.str_in sub s = true -> exists a b, s = a ++ sub ++ b.
Proof.
  induction s as [|c s IH]; intro H; cbn [Text.str_in] in H.
  - destruct (String.prefix sub EmptyString) eqn:E; [|discriminate].
    apply prefix_split in E. destruct E as (b & E).
    exists EmptyString, b. exact E.
  - destruct (String.prefix sub (String c s)) eqn:E.
    + apply prefix_split in E. destruct E as (b & E).
      exists EmptyString, b. exact E.
    + destruct (IH H) as (a & b & ->). exists (String c a), b. reflexivity.
Qed.

Lemma str_in_prefix sub s :
  String.prefix sub s = true -> Text.str_in sub s = true.
Proof. destruct s; cbn [Text.str_in]; intros ->; reflexivity. Qed.

Lemma str_in_app sub b : forall a, Text.str_in sub (a ++ sub ++ b) = true.
Proof.
  induction a as [|c a IH].
  - cbn [String.append]. apply str_in_prefix, prefix_app.
  - cbn [String.append Text.str_in]. rewrite IH.
    destruct (String.prefix sub (String c (a ++ sub ++ b))); reflexivity.
Qed.

Lemma lstrip_keeps c r : Text.isspace c = false ->
  forall a, exists a', Text.lstrip (a ++ String c r) = a' ++ String c r.
Proof.
  intros Hc. induction a as [|x a IH]; simpl.
  - rewrite Hc. exists EmptyString. reflexivity.
  - destruct (Text.isspace x); [exact IH|].
    exists (String x a). reflexivity.
Qed.

Lemma rstrip_keeps d : Text.isspace d = false ->
  forall u b, Text.rstrip (u ++ String d b) = u ++ String d (Text.rstrip b).
Proof.
  intros Hd. induction u as [|x u IH]; intro b; simpl.
  - destruct (Text.rstrip b); [rewrite Hd|]; reflexivity.
  - rewrite IH. destruct u; reflexivity.
Qed.

Lemma rstrip_idem : forall s, Text.rstrip (Text.rstrip s) = Text.rstrip s.
Proof.
  induction s as [|c s IH]; [reflexivity|]. simpl.
  destruct (Text.rstrip s) as [|r0 r] eqn:E.
  - destruct (Text.isspace c) eqn:Ec; simpl; [reflexivity|].
    rewrite Ec. reflexivity.
  - simpl. simpl in IH. rewrite IH. reflexivity.
Qed.

Lemma lstrip_head : forall s,
  match Text.lstrip s with
  | EmptyString => True
  | String c _ => Text.isspace c = false
  end.
Proof.
  induction s as [|c s IH]; simpl; [exact I|].
  destruct (Text.isspace c) eqn:E; [exact IH|exact E].
Qed.

Lemma rstrip_head c s :
  Text.rstrip (String c s) = EmptyString
  \/ exists r, Text.rstrip (String c s) = String c r.
Proof.
  simpl. destruct (Text.rstrip s).
  - destruct (Text.isspace c); [left|right; eexists]; reflexivity.
  - right. eexists. reflexivity.
Qed.

Lemma strip_idem s : Text.strip (Text.strip s) = Text.strip s.
Proof.
  unfold Text.strip.
  assert (L : Text.lstrip (Text.rstrip (Text.lstrip s))
              = Text.rstrip (Text.lstrip s)).
  { pose proof (lstrip_head s) as H.
    destruct (Text.lstrip s) as [|c t]; [reflexivity|].
    destruct (rstrip_head c t) as [E|(r & E)]; rewrite E; [reflexivity|].
    simpl. rewrite H. reflexivity. }
  rewrite L. apply rstrip_idem.
Qed.

Lemma strip_keeps_marker line :
  Text.str_in marker line = true -> Text.str_in marker (Text.strip line) = true.
Proof.
  intro H. apply str_in_split in H. destruct H as (a & b & ->).
  unfold Text.strip, marker.
  change ("COLLSCAN" ++ b) with (String "C" ("OLLSCAN" ++ b)).
  destruct (lstrip_keeps "C" ("OLLSCAN" ++ b) eq_refl a) as (a' & ->).
  change (a' ++ String "C" ("OLLSCAN" ++ b))
    with (a' ++ "COLLSCA" ++ String "N" b).
  rewrite <- string_app_assoc.
  rewrite (rstrip_keeps "N" eq_refl).
  rewrite string_app_assoc.
  change ("COLLSCA" ++ String "N" (Text.rstrip b))
    with ("COLLSCAN" ++ Text.rstrip b).
  apply str_in_app.
Qed.

(** X8: the raw text kept in every record of a scan still holds the marker
    and has no whitespace left at either end: stripping it again changes
    nothing. *)
Theorem raw_line_trimmed : forall (lines : list string) (q : query_info),
  In q (scan_lines lines) ->
  Text.str_in marker (raw_line q) = true
  /\ Text.strip (raw_line q) = raw_line q.
Proof.
  intros lines q H. rewrite scan_lines_spec in H.
  apply in_map_iff in H. destruct H as ([i l] & <- & H).
  apply filter_In in H. destruct H as [_ Hm].
  unfold has_marker in Hm. cbn [snd] in Hm.
  unfold record_of. cbn [fst snd]. rewrite parse_raw_line.
  split; [apply strip_keeps_marker; exact Hm|apply strip_idem].
Qed.

Lemma raw_line_trimmed_witness :
  Text.str_in marker partial_line = true
  /\ Text.strip partial_line = partial_line.
Proof.
  apply (raw_line_trimmed demo_log (parse_collscan_line (partial_line ++ nl) 4)).
  vm_compute. right. left. reflexivity.
Defined.

(** ** When the average is a float *)



Lemma floor_log2_quot_upper n d :
  0 < n -> 0 < d -> below_pow2 n d (Float.floor_log2_quot n d + 1).
Proof.
  intros Hn Hd. unfold Float.floor_log2_quot.
  set (g := Z.log2 n - Z.log2 d).
  destruct (Float.scaled n d g) as [n' d'] eqn:E.
  destruct (Z.leb_spec d' n') as [Hle|Hlt].
  - pose proof (Z.log2_spec n Hn) as [_ Hn2].
    pose proof (Z.log2_spec d Hd) as [Hd1 _].
    pose proof (Z.log2_nonneg n). pose proof (Z.log2_nonneg d).
    unfold below_pow2, Float.scaled. cbn [fst snd].
    destruct (Z.le_gt_cases 0 (g + 1)) as [Hg|Hg].
    + rewrite (Z.max_l 0 (- (g + 1))), (Z.max_r 0 (g + 1)) by lia.
      replace (Z.succ (Z.log2 n)) with (Z.log2 d + (g + 1)) in Hn2 by (subst g; lia).
      rewrite Z.pow_add_r in Hn2 by lia.
      assert (0 < 2 ^ (g + 1)) by (apply Z.pow_pos_nonneg; lia).
      simpl. nia.
    + rewrite (Z.max_r 0 (- (g + 1))), (Z.max_l 0 (g + 1)) by lia.
      replace (Z.log2 d) with (Z.succ (Z.log2 n) + (- (g + 1))) in Hd1 by (subst g; lia).
      rewrite Z.pow_add_r in Hd1 by lia.
      assert (0 < 2 ^ (- (g + 1))) by (apply Z.pow_pos_nonneg; lia).
      simpl. nia.
  - replace (g - 1 + 1) with g by lia.
    unfold below_pow2. rewrite E. exact Hlt.
Qed.







(** ** The detail view *)

Lemma prints_ret : prints (ret tt) [].
Proof. intros pre w0. unfold ret. rewrite app_nil_r. reflexivity. Qed.

Lemma prints_print s : prints (print s) [s].
Proof. intros pre w0. reflexivity. Qed.

Lemma prints_when b s : prints (when b (print s)) (line_if b s).
Proof. destruct b; [apply prints_print|apply prints_ret]. Qed.

Lemma prints_bind c1 c2 o1 o2 :
  prints c1 o1 -> prints c2 o2 -> prints (c1 ;; c2) (o1 ++ o2)%list.
Proof.
  intros H1 H2 pre w0. unfold bind. rewrite H1, H2, app_assoc. reflexivity.
Qed.

Lemma prints_for_each {A} (body : A -> M unit) (g : A -> list string) :
  (forall x, prints (body x) (g x)) ->
  forall l, prints (for_each l body) (flat_map g l).
Proof.
  intros H l. induction l as [|x l IH]; [apply prints_ret|].
  cbn [for_each flat_map]. apply prints_bind; [apply H|exact IH].
Qed.

Lemma prints_run c out w :
  prints c out -> c w = (Return tt, set_stdout (stdout w ++ out)%list w).
Proof.
  intro H. destruct w as [r o q e f l]. exact (H l (World r o q e f l)).
Qed.

(** One step of a sequence of prints. *)
Ltac prints_step :=
  first [ apply prints_print | apply prints_when
        | eapply prints_bind; [first [apply prints_print | apply prints_when]|] ].

Lemma detail_body_prints show_details (iq : Z * query_info) :
  prints
    ((fun '(i, q) =>
        print (nl ++ "--- Query #" ++ Text.str_of_int i ++ " (Line "
                  ++ Text.str_of_int (line_number q) ++ ") ---") ;;
        when (truthy_str (timestamp q))
          (print ("Timestamp:      " ++ str_opt (timestamp q))) ;;
        when (truthy_str (collection q))
          (print ("Collection:     " ++ str_opt (collection q))) ;;
        when (is_some (duration_ms q))
          (print ("Duration:       " ++ str_opt_int (duration_ms q) ++ "ms")) ;;
        when (is_some (docs_examined q))
          (print ("Docs Examined:  " ++ str_opt_int (docs_examined q))) ;;
        when (is_some (keys_examined q))
          (print ("Keys Examined:  " ++ str_opt_int (keys_examined q))) ;;
        when (truthy_str (plan_summary q))
          (print ("Plan:           " ++ str_opt (plan_summary q))) ;;
        when (truthy_str (query q) && show_details)
          (print ("Query:          " ++ str_opt (query q))) ;;
        when show_details
          (print ("Raw:            " ++ Text.take 100 (raw_line q) ++ "...")))
       iq)
    (detail_block show_details iq).
Proof.
  destruct iq as [i q]. unfold detail_block. cbn [fst snd].
  repeat prints_step.
Qed.

(** The detail view only prints, and these are its lines. *)
Lemma detail_prints qs show_details limit :
  prints (print_detailed_results qs show_details limit)
         (detail_output qs show_details limit).
Proof.
  unfold print_detailed_results, detail_output, detail_head.
  destruct qs as [|q0 qs0]; [apply prints_ret|].
  change [nl ++ banner;
          "DETAILED RESULTS (showing first " ++ Text.str_of_int limit ++ ")";
          banner]
    with ([(nl ++ banner)%string]
            ++ [("DETAILED RESULTS (showing first "
                   ++ Text.str_of_int limit ++ ")")%string]
            ++ [banner])%list.
  rewrite <- !app_assoc.
  do 3 prints_step.
  eapply prints_bind; [|apply prints_when].
  apply prints_for_each. intro iq. apply detail_body_prints.
Qed.

Lemma len_firstn {A} (n : nat) (l : list A) :
  len (firstn n l) = Z.min (Z.of_nat n) (len l).
Proof. unfold len. rewrite length_firstn. lia. Qed.

(** X10: with a limit that is not negative, the detail view of a non-empty
    list prints its head, the blocks of the first [limit] records numbered
    from 1 and, exactly when records are left over, the line that counts
    them; every record is either shown or counted there. *)
Theorem detail_shows_or_counts :
  forall (qs : list query_info) (show_details : bool) (limit : Z) (w : world),
  qs <> [] ->
  0 <= limit ->
  print_detailed_results qs show_details limit w
  = (Return tt,
     set_stdout
       (stdout w
          ++ [ (nl ++ banner)%string;
               ("DETAILED RESULTS (showing first "
                  ++ Text.str_of_int limit ++ ")")%string;
               banner ]
          ++ flat_map (detail_block show_details)
                      (enumerate (firstn (Z.to_nat limit) qs) 1)
          ++ (if limit <? len qs
              then [ (nl ++ "... and " ++ Text.str_of_int (len qs - limit)
                         ++ " more queries")%string ]
              else []))%list w)
  /\ len (firstn (Z.to_nat limit) qs)
     + (if limit <? len qs then len qs - limit else 0)
     = len qs.
Proof.
  intros qs show_details limit w Hne Hl. split.
  - rewrite (prints_run _ _ w (detail_prints qs show_details limit)).
    unfold detail_output, detail_head, more_line, line_if, slice_to.
    destruct qs as [|q0 qs0]; [contradiction|].
    destruct (Z.ltb_spec limit 0); [lia|]. reflexivity.
  - rewrite len_firstn. destruct (Z.ltb_spec limit (len qs)); lia.
Qed.

Lemma detail_shows_or_counts_witness :
  stdout (snd (print_detailed_results tie_records false 2 demo_world))
  = [ nl ++ banner; "DETAILED RESULTS (showing first 2)"; banner;
      nl ++ "--- Query #1 (Line 1) ---";
      "Collection:     shop.b"; "Duration:       150ms";
      nl ++ "--- Query #2 (Line 2) ---";
      "Collection:     shop.a"; "Duration:       20ms";
      nl ++ "... and 4 more queries" ].
Proof.
  assert (Hne : tie_records <> []) by (vm_compute; discriminate).
  rewrite (proj1 (detail_shows_or_counts tie_records false 2 demo_world Hne
                    ltac:(lia))).
  vm_compute. reflexivity.
Defined.

(** X11: with a negative limit the detail view shows the records but for
    the last [-limit] of them, and its closing line counts
    [len qs - limit] further queries, more than there are records. *)
Theorem detail_negative_limit :
  forall (qs : list query_info) (show_details : bool) (limit : Z) (w : world),
  qs <> [] ->
  limit < 0 ->
  print_detailed_results qs show_details limit w
  = (Return tt,
     set_stdout
       (stdout w
          ++ [ (nl ++ banner)%string;
               ("DETAILED RESULTS (showing first "
                  ++ Text.str_of_int limit ++ ")")%string;
               banner ]
          ++ flat_map (detail_block show_details)
                      (enumerate (firstn (Z.to_nat (len qs + limit)) qs) 1)
          ++ [ (nl ++ "... and " ++ Text.str_of_int (len qs - limit)
                   ++ " more queries")%string ])%list w)
  /\ len (firstn (Z.to_nat (len qs + limit)) qs) = Z.max 0 (len qs + limit)
  /\ len qs < len qs - limit.
Proof.
  intros qs show_details limit w Hne Hl. split; [|split].
  - rewrite (prints_run _ _ w (detail_prints qs show_details limit)).
    unfold detail_output, detail_head, more_line, line_if, slice_to.
    destruct qs as [|q0 qs0]; [contradiction|].
    destruct (Z.ltb_spec limit 0); [|lia].
    destruct (Z.ltb_spec limit (len (q0 :: qs0))); [reflexivity|].
    unfold len in *. lia.
  - rewrite len_firstn. unfold len. lia.
  - lia.
Qed.

Lemma detail_negative_limit_witness :
  stdout (snd (print_detailed_results half_known false (-1) demo_world))
  = [ nl ++ banner; "DETAILED RESULTS (showing first -1)"; banner;
      nl ++ "--- Query #1 (Line 1) ---";
      "Collection:     shop.a"; "Duration:       150ms";
      nl ++ "... and 3 more queries" ].
Proof.
  assert (Hne : half_known <> []) by (vm_compute; discriminate).
  rewrite (proj1 (detail_negative_limit half_known false (-1) demo_world Hne
                    ltac:(lia))).
  vm_compute. reflexivity.
Defined.

Lemma line_if_length b s : (List.length (line_if b s) <= 1)%nat.
Proof. destruct b; simpl; lia. Qed.

Lemma detail_block_length show_details iq :
  (1 <= List.length (detail_block show_details iq) <= 9)%nat
  /\ (show_details = false ->
      (List.length (detail_block show_details iq) <= 7)%nat).
Proof.
  unfold detail_block. rewrite !length_app.
  destruct show_details; rewrite ?andb_false_r; cbn [line_if List.length];
    repeat match goal with
           | |- context [List.length (line_if ?b ?s)] =>
               let H := fresh "L" in
               pose proof (line_if_length b s) as H;
               generalize dependent (List.length (line_if b s)); intros
           end;
    (split; [lia|]); intro E; [discriminate E|lia].
Qed.

Lemma flat_map_length_le {A B} (g : A -> list B) (k : nat) :
  (forall x, (List.length (g x) <= k)%nat) ->
  forall l, (List.length (flat_map g l) <= k * List.length l)%nat.
Proof.
  intros H l. induction l as [|x l IH]; simpl; [lia|].
  rewrite length_app. specialize (H x). lia.
Qed.

(** X12: the detail view always returns normally and only prints; it
    prints nothing for an empty list, and otherwise at most four lines and
    nine lines for each record, so at most [4 + 9 * limit] lines whatever
    the number of records (seven for each record without details). *)
Theorem detail_output_bounded :
  forall (qs : list query_info) (show_details : bool) (limit : Z) (w : world),
  exists out,
    print_detailed_results qs show_details limit w
    = (Return tt, set_stdout (stdout w ++ out)%list w)
    /\ (qs = [] -> out = [])
    /\ Z.of_nat (List.length out) <= 4 + 9 * len qs
    /\ (0 <= limit -> Z.of_nat (List.length out) <= 4 + 9 * limit)
    /\ (show_details = false -> Z.of_nat (List.length out) <= 4 + 7 * len qs).
Proof.
  intros qs show_details limit w.
  exists (detail_output qs show_details limit).
  split; [apply prints_run, detail_prints|].
  unfold detail_output. destruct qs as [|q0 qs0].
  - unfold len. cbn [List.length]. split; [reflexivity|].
    repeat split; intros; lia.
  - assert (Hne : q0 :: qs0 <> []) by discriminate.
    remember (q0 :: qs0) as qs eqn:E. clear E.
    split; [intro H; contradiction|].
    rewrite !length_app.
    pose proof (line_if_length (limit <? len qs) (more_line qs limit)) as Lm.
    pose proof (flat_map_length_le (detail_block show_details) 9
                  (fun iq => proj2 (proj1 (detail_block_length show_details iq)))
                  (enumerate (slice_to limit qs) 1)) as L9.
    assert (Le : List.length (enumerate (slice_to limit qs) 1)
                 = List.length (slice_to limit qs))
      by (rewrite <- (enumerate_snd (slice_to limit qs) 1) at 2;
          rewrite length_map; reflexivity).
    rewrite Le in L9.
    assert (Ls : (List.length (slice_to limit qs) <= List.length qs)%nat)
      by (unfold slice_to; rewrite length_firstn; lia).
    unfold detail_head. cbn [List.length]. unfold len in *.
    split; [lia|]. split.
    + intro Hl. unfold slice_to in *.
      rewrite (proj2 (Z.ltb_ge limit 0) Hl) in *.
      rewrite length_firstn in L9. lia.
    + intros ->.
      pose proof (flat_map_length_le (detail_block false) 7
                    (fun iq => proj2 (detail_block_length false iq) eq_refl)
                    (enumerate (slice_to limit qs) 1)) as L7.
      rewrite Le in L7. lia.
Qed.

Lemma detail_output_bounded_witness :
  exists out,
    print_detailed_results (scan_lines long_log) true LIMIT demo_world
    = (Return tt, set_stdout out demo_world)
    /\ Z.of_nat (List.length out) <= 4 + 9 * 20.
Proof.
  destruct (detail_output_bounded (scan_lines long_log) true LIMIT demo_world)
    as (out & Hrun & _ & _ & Hb & _).
  exists out. split; [exact Hrun|]. apply Hb. unfold LIMIT. lia.
Defined.

(** ** More on the export *)



Lemma get_put_other p path c : forall fs,
  p <> path -> get_file p (put_file path c fs) = get_file p fs.
Proof.
  intros fs Hp. induction fs as [|[p' c'] fs IH]; simpl.
  - destruct (String.eqb_spec path p); [congruence|reflexivity].
  - destruct (String.eqb_spec p' path) as [->|Hn]; simpl.
    + destruct (String.eqb_spec path p); [congruence|reflexivity].
    + rewrite IH. reflexivity.
Qed.


(** The export returns normally and leaves every other file as it was. *)
Lemma export_frame qs path w :
  exists w' line,
    export_to_file qs path w = (Return tt, w')
    /\ stdout w' = (stdout w ++ [line])%list
    /\ fs_open_r w' = fs_open_r w
    /\ (forall p, p <> path -> get_file p (fs_out w') = get_file p (fs_out w))
    /\ (forall e, fs_open_w w path = Some e -> fs_out w' = fs_out w).
Proof.
  rewrite export_runs.
  destruct (fs_open_w w path) as [e|].
  - eexists; eexists. split; [reflexivity|]. cbn [stdout fs_out fs_open_r set_stdout].
    repeat split; auto.
  - destruct (fs_quota w) as [n|];
      [destruct (List.length (export_chunks qs) <=? n)%nat|];
      eexists; eexists; (split; [reflexivity|]);
      cbn [stdout fs_out fs_open_r set_stdout set_out];
      (split; [reflexivity|]); (split; [reflexivity|]);
      (split; [intros p Hp; apply get_put_other; exact Hp|]);
      intros e He; discriminate He.
Qed.





(** X15: the export touches no file but its own, and creates not even that
    one when it cannot be opened. *)
Theorem export_touches_one_file :
  forall (qs : list query_info) (path : string) (w : world),
  (forall p, p <> path ->
     get_file p (fs_out (snd (export_to_file qs path w)))
     = get_file p (fs_out w))
  /\ (forall e, fs_open_w w path = Some e ->
      fs_out (snd (export_to_file qs path w)) = fs_out w).
Proof.
  intros qs path w.
  destruct (export_frame qs path w) as (w' & line & Hrun & _ & _ & Hp & He).
  rewrite Hrun. cbn [snd]. split; assumption.
Qed.

Lemma export_touches_one_file_witness :
  get_file "notes.txt"
    (fs_out (snd (export_to_file tie_records "collscan_report.txt" kept_world)))
  = Some "keep".
Proof.
  rewrite (proj1 (export_touches_one_file tie_records "collscan_report.txt"
                    kept_world) "notes.txt" ltac:(discriminate)).
  reflexivity.
Defined.

(** ** The whole program *)
















(** ** An average that is a whole number *)

Lemma floor_log2_quot_lower n d :
  0 < n -> 0 < d ->
  snd (Float.scaled n d (Float.floor_log2_quot n d))
  <= fst (Float.scaled n d (Float.floor_log2_quot n d)).
Proof.
  intros Hn Hd. unfold Float.floor_log2_quot.
  set (g := Z.log2 n - Z.log2 d).
  destruct (Float.scaled n d g) as [n' d'] eqn:E.
  destruct (Z.leb_spec d' n') as [Hle|Hlt].
  - rewrite E. exact Hle.
  - pose proof (Z.log2_spec n Hn) as [Hn1 _].
    pose proof (Z.log2_spec d Hd) as [_ Hd2].
    pose proof (Z.log2_nonneg n). pose proof (Z.log2_nonneg d).
    unfold Float.scaled. cbn [fst snd].
    destruct (Z.le_gt_cases 0 (g - 1)) as [Hg|Hg].
    + rewrite (Z.max_l 0 (- (g - 1))), (Z.max_r 0 (g - 1)) by lia.
      replace (Z.log2 n) with (Z.succ (Z.log2 d) + (g - 1)) in Hn1
        by (subst g; lia).
      rewrite Z.pow_add_r in Hn1 by lia.
      assert (0 < 2 ^ (g - 1)) by (apply Z.pow_pos_nonneg; lia).
      change (2 ^ 0) with 1. nia.
    + rewrite (Z.max_r 0 (- (g - 1))), (Z.max_l 0 (g - 1)) by lia.
      replace (Z.succ (Z.log2 d)) with (Z.log2 n + (- (g - 1))) in Hd2
        by (subst g; lia).
      rewrite Z.pow_add_r in Hd2 by lia.
      assert (0 < 2 ^ (- (g - 1))) by (apply Z.pow_pos_nonneg; lia).
      change (2 ^ 0) with 1. nia.
Qed.

Lemma floor_log2_quot_exact k b :
  0 < k -> 0 < b -> Float.floor_log2_quot (k * b) b = Z.log2 k.
Proof.
  intros Hk Hb.
  pose proof (floor_log2_quot_upper (k * b) b ltac:(nia) Hb) as U.
  pose proof (floor_log2_quot_lower (k * b) b ltac:(nia) Hb) as L.
  set (fl := Float.floor_log2_quot (k * b) b) in *.
  unfold below_pow2, Float.scaled in *. cbn [fst snd] in *.
  assert (Hfl : 0 <= fl).
  { destruct (Z.le_gt_cases 0 fl) as [|Hneg]; [assumption|exfalso].
    rewrite (Z.max_r 0 (- (fl + 1))), (Z.max_l 0 (fl + 1)) in U by lia.
    assert (0 < 2 ^ (- (fl + 1))) by (apply Z.pow_pos_nonneg; lia).
    change (2 ^ 0) with 1 in U.
    assert (b <= k * b) by nia.
    assert (k * b * 1 <= k * b * 2 ^ (- (fl + 1)))
      by (apply Z.mul_le_mono_nonneg_l; nia).
    lia. }
  rewrite (Z.max_l 0 (- (fl + 1))), (Z.max_r 0 (fl + 1)) in U by lia.
  rewrite (Z.max_l 0 (- fl)), (Z.max_r 0 fl) in L by lia.
  change (2 ^ 0) with 1 in *.
  symmetry. apply Z.log2_unique; [exact Hfl|].
  replace (Z.succ fl) with (fl + 1) by lia. split; nia.
Qed.

Lemma round_half_even_exact q d :
  0 < d -> Float.round_half_even (q * d) d = q.
Proof.
  intro Hd. unfold Float.round_half_even.
  rewrite Z.div_mul, Z.mod_mul by lia.
  destruct (Z.ltb_spec d (2 * 0)); [lia|].
  destruct (Z.eqb_spec (2 * 0) d); [lia|]. reflexivity.
Qed.

(** The float of an exact quotient [k] below 2^53, and its text. *)
Lemma true_div_exact k b :
  0 < k < 2 ^ 53 -> 0 < b ->
  exists x,
    Float.true_div (k * b) b = Return x
    /\ Float.format_2f x = Text.str_of_int k ++ ".00".
Proof.
  intros [Hk Hk53] Hb.
  assert (Hlog : 0 <= Z.log2 k < 53)
    by (split; [apply Z.log2_nonneg|apply Z.log2_lt_pow2; lia]).
  pose proof (Z.log2_spec k Hk) as [Hl1 Hl2].
  set (s := 52 - Z.log2 k).
  assert (Hs : 0 <= s <= 52) by (subst s; lia).
  assert (HP : 0 < 2 ^ s) by (apply Z.pow_pos_nonneg; lia).
  exists (Float.Float false (k * 2 ^ s) (- s)).
  split.
  - unfold Float.true_div.
    destruct (Z.eqb_spec b 0); [lia|].
    rewrite (Z.abs_eq (k * b)), (Z.abs_eq b) by nia.
    destruct (Z.eqb_spec (k * b) 0); [nia|].
    rewrite floor_log2_quot_exact by lia.
    replace (Z.max (Z.log2 k - 52) (-1074)) with (- s) by (subst s; lia).
    unfold Float.scaled.
    rewrite (Z.max_r 0 (- - s)), (Z.max_l 0 (- s)) by lia.
    rewrite Z.opp_involutive. change (2 ^ 0) with 1. rewrite Z.mul_1_r.
    replace (k * b * 2 ^ s) with (k * 2 ^ s * b) by ring.
    rewrite round_half_even_exact by lia.
    assert (Hm : k * 2 ^ s < 2 ^ 53).
    { replace 53 with (Z.succ (Z.log2 k) + s) by (subst s; lia).
      rewrite Z.pow_add_r by lia. nia. }
    assert (Hbig : 2 ^ 53 <= 2 ^ (1024 - - s))
      by (apply Z.pow_le_mono_r; lia).
    destruct (Z.leb_spec (2 ^ (1024 - - s)) (k * 2 ^ s)); [lia|].
    replace (xorb (k * b <? 0) (b <? 0)) with false; [reflexivity|].
    destruct (Z.ltb_spec (k * b) 0); [nia|].
    destruct (Z.ltb_spec b 0); [lia|reflexivity].
  - unfold Float.format_2f. cbn [Float.f_neg Float.f_mant Float.f_exp].
    unfold Float.scaled.
    replace (- - s) with s by lia.
    rewrite (Z.max_l 0 (- s)), (Z.max_r 0 s) by lia.
    change (2 ^ 0) with 1. rewrite Z.mul_1_r, Z.mul_1_l.
    replace (100 * (k * 2 ^ s)) with (100 * k * 2 ^ s) by ring.
    rewrite round_half_even_exact by lia.
    replace (100 * k) with (k * 100) by ring.
    rewrite Z.div_mul, Z.mod_mul by lia. reflexivity.
Qed.

(** X19: when some record is slow and the sum of the durations is a whole
    multiple [k] of the number of records, with [k] below 2^53, the
    average the summary prints is [k] followed by two zero decimals. *)
Theorem average_whole_number :
  forall (qs : list query_info) (w : world) (k : Z),
  (exists q, In q qs /\ is_slow q = true) ->
  sum_durations qs = k * len qs ->
  0 < k < 2 ^ 53 ->
  print_summary qs w
  = (Return tt,
     set_stdout (stdout w ++ summary_head qs ++ table_lines qs
                   ++ [slow_line qs;
                       ("Average duration: " ++ Text.str_of_int k
                          ++ ".00ms")%string])%list w).
Proof.
  intros qs w k Hslow Hsum Hk.
  destruct (slow_nonempty qs Hslow) as [Hne Hs].
  assert (Hlen : 0 < len qs)
    by (unfold len; destruct qs; [contradiction|simpl; lia]).
  destruct (true_div_exact k (len qs) Hk Hlen) as (x & Hdiv & Hfmt).
  rewrite (print_summary_runs qs w Hne).
  destruct (filter is_slow qs); [contradiction|].
  rewrite Hsum, Hdiv. unfold average_line. rewrite Hfmt.
  rewrite string_app_assoc. reflexivity.
Qed.

Lemma average_whole_number_witness :
  stdout (snd (print_summary half_known demo_world))
  = [ nl ++ banner; "SUMMARY"; banner;
      nl ++ "Total COLLSCAN queries found: 2";
      nl ++ "COLLSCAN queries by collection:";
      "  shop.a: 2";
      nl ++ "Slow COLLSCAN queries (>100ms): 1";
      "Average duration: 75.00ms" ].
Proof.
  assert (S : exists q, In q half_known /\ is_slow q = true).
  { exists (parse_collscan_line ("COLLSCAN ns: shop.a 150ms" ++ nl) 1).
    split; [left|]; vm_compute; reflexivity. }
  rewrite (average_whole_number half_known demo_world 75 S
             ltac:(vm_compute; reflexivity) ltac:(lia)).
  vm_compute. reflexivity.
Defined.
